(** * quanto/calibrate.py: the calibration mode of quantized modules

    A shallow embedding of [_updated_scale] and of the [Calibration]
    torch function mode (its two forward hooks and its scope
    lifecycle), together with the properties the specification states
    about them.

    The tensor library (torch) and the parts of quanto that
    calibrate.py imports ([QModuleMixin], [QTensor], [absmax_scale])
    are interfaces of the development: the hooks are written against
    them, and a small executable instance over the rationals is given
    at the end to run the hooks on concrete inputs. *)

From Stdlib Require Import List Bool Arith Lia QArith Qabs.
Import ListNotations.

Set Implicit Arguments.

Close Scope Q_scope.

(** ** Exceptions and results *)

(** The Python exceptions the modelled code can raise. *)
Inductive exn : Type :=
| IndexError      (* [input[0]] on an empty tuple *)
| AttributeError  (* an attribute that was never set *)
| RuntimeError.   (* torch: broadcast mismatch, reduction of an empty tensor,
                     pop of an empty mode stack *)

Inductive result (A : Type) : Type :=
| Ok (a : A)
| Raise (e : exn).

Arguments Ok {A} a.
Arguments Raise {A} e.

Definition is_ok {A} (r : result A) : bool :=
  match r with Ok _ => true | Raise _ => false end.

(** ** The tensor interface *)

(** What calibrate.py uses of torch.  [F] is the type of Python floats
    and [lit] reads a numeric literal of the source.  [elems] is the
    flat view of a tensor, [smul k t] is [k * t] and [muls t k] is
    [t * k] for a Python number [k]; [tadd] is [+] between tensors, which
    raises when the shapes do not broadcast; [tmax] is [torch.max] with
    one argument, which raises on an empty tensor. *)
Class Torch : Type := {
  F : Type;
  lit : Q -> F;
  fsub : F -> F -> F;
  feqb : F -> F -> bool;
  fleb : F -> F -> bool;
  Tensor : Type;
  elems : Tensor -> list F;
  smul : F -> Tensor -> Tensor;
  muls : Tensor -> F -> Tensor;
  tadd : Tensor -> Tensor -> result Tensor;
  tmax : Tensor -> result Tensor
}.

(** The facts about torch and Python numbers the proofs rely on.  Two
    literals that denote the same number are the same float;
    [Tensor.__rmul__] is [Tensor.__mul__], so a Python number multiplies a
    tensor the same way from either side; [torch.max] returns a 0-dim
    tensor holding an element of its argument that bounds all the
    others. *)
Class TorchLaws (T : Torch) : Prop := {
  lit_Qeq : forall p q : Q, Qeq p q -> lit p = lit q;
  muls_smul : forall (t : Tensor) (k : F), muls t k = smul k t;
  tmax_spec : forall t : Tensor,
      match tmax t with
      | Ok s => exists mx, elems s = [mx] /\ In mx (elems t)
                           /\ Forall (fun x => fleb x mx = true) (elems t)
      | Raise _ => elems t = []
      end
}.

Section ScaleUpdate.

Context {T : Torch}.

(** [scale == c], elementwise, and [torch.all]. *)
Definition tensor_eq_scalar (t : Tensor) (c : F) : list bool :=
  map (fun x => feqb x c) (elems t).

Definition torch_all (bs : list bool) : bool := forallb (fun b => b) bs.

(** calibrate.py, lines 15-18. *)
Definition _updated_scale (scale new_scale : Tensor) (momentum : F)
  : result Tensor :=
  if torch_all (tensor_eq_scalar scale (lit 1)) then Ok new_scale
  else tadd (smul momentum scale) (muls new_scale (fsub (lit 1.0) momentum)).

(** The initialization sentinel: every element equals 1. *)
Definition is_sentinel (scale : Tensor) : Prop :=
  Forall (fun x => feqb x (lit 1) = true) (elems scale).

End ScaleUpdate.

(** ** A state and exception monad

    A hook mutates the module it is called on and may raise after it
    has done so: a computation returns its result, or the exception,
    together with the state it leaves behind. *)

Definition M (S A : Type) : Type := S -> result A * S.

Definition ret {S A} (a : A) : M S A := fun s => (Ok a, s).

Definition bind {S A B} (c : M S A) (k : A -> M S B) : M S B :=
  fun s => match c s with
           | (Ok a, s') => k a s'
           | (Raise e, s') => (Raise e, s')
           end.

Definition get {S} : M S S := fun s => (Ok s, s).
Definition modify {S} (f : S -> S) : M S unit := fun s => (Ok tt, f s).
Definition lift {S A} (r : result A) : M S A := fun s => (r, s).

Declare Scope monad_scope.
Delimit Scope monad_scope with monad.
Notation "x <- c ;; k" := (bind c (fun x => k))
  (at level 61, c at next level, right associativity) : monad_scope.
Notation "c ;; k" := (bind c (fun _ => k))
  (at level 61, right associativity) : monad_scope.
Open Scope monad_scope.

(** ** The quanto interface *)

(** How the [axis] argument of [absmax_scale] is passed. *)
Inductive AxisArg : Type :=
| AxisOmitted          (* left to the default of [absmax_scale] *)
| AxisNone             (* [axis=None] *)
| AxisDim (d : nat).

Section Quanto.

Context {T : Torch}.

(** A [QTensor]: integer data and the scale it is to be multiplied by. *)
Record QTensor : Type := mkQTensor {
  _data : Tensor;
  _scale : Tensor
}.

(** A positional input or an output of a module: a plain tensor or a
    quantized one ([isinstance(v, QTensor)]). *)
Inductive Value : Type :=
| Plain (t : Tensor)
| Quant (q : QTensor).

(** Modelled from the spec: [absmax_scale] and [QTensor.dequantize] live
    in quanto/qtensor.py, which is outside calibrate.py.
    [QType] is the activation quantization configuration
    ([module.activations] when it is not [None]); [absmax_scale] is the
    absolute-max estimator, taking a tensor, a configuration and an
    optional reduction axis. *)
Class Quanto : Type := {
  QType : Type;
  absmax_scale : Tensor -> QType -> AxisArg -> result Tensor;
  dequantize : QTensor -> Tensor
}.

(** Modelled from the spec: the contract of [absmax_scale] (in
    quanto/qtensor.py) for [axis=None], no axis reduction: the scale it
    returns is a single scalar. *)
Class QuantoLaws (Qo : Quanto) : Prop := {
  absmax_none_scalar : forall (t : Tensor) (acts : QType) (s : Tensor),
      absmax_scale t acts AxisNone = Ok s -> length (elems s) = 1
}.

Context {Qo : Quanto}.

(** A module of the model.  [is_qmodule] is
    [isinstance(module, QModuleMixin)].  The two forward paths read the
    scales of the module they are called on and leave them as they are:
    only the calibration hooks write them. *)
Record Module : Type := mkModule {
  is_qmodule : bool;
  activations : option QType;
  input_scale : Tensor;
  output_scale : Tensor;
  qforward_fn : Tensor -> Tensor -> Value -> result Value;
  forward_fn : Tensor -> Tensor -> list Value -> result Value
}.

Definition qforward (module : Module) (x : Value) : result Value :=
  qforward_fn module (input_scale module) (output_scale module) x.

Definition forward (module : Module) (args : list Value) : result Value :=
  forward_fn module (input_scale module) (output_scale module) args.

Definition set_input_scale (s : Tensor) (module : Module) : Module :=
  {| is_qmodule := is_qmodule module;
     activations := activations module;
     input_scale := s;
     output_scale := output_scale module;
     qforward_fn := qforward_fn module;
     forward_fn := forward_fn module |}.

Definition set_output_scale (s : Tensor) (module : Module) : Module :=
  {| is_qmodule := is_qmodule module;
     activations := activations module;
     input_scale := input_scale module;
     output_scale := s;
     qforward_fn := qforward_fn module;
     forward_fn := forward_fn module |}.

(** ** The controller *)

(** Which of the two global hook dictionaries a handle points to. *)
Inductive HookDict : Type := PreHooks | PostHooks.

(** [torch.utils.hooks.RemovableHandle]. *)
Record RemovableHandle : Type := mkHandle {
  hooks_dict : HookDict;
  id : nat
}.

(** A [Calibration] object.  The handles are attributes that exist only
    once [__enter__] has run. *)
Record Calibration : Type := mkCalibration {
  momentum : F;
  pre_handle : option RemovableHandle;
  post_handle : option RemovableHandle
}.

(** [Calibration(momentum=m)]; [Calibration()] takes [m] = 0.9. *)
Definition __init__ (m : option F) : Calibration :=
  {| momentum := match m with Some k => k | None => lit 0.9 end;
     pre_handle := None;
     post_handle := None |}.

(** What a forward pre-hook returns: nothing, one value, or a tuple of
    positional inputs. *)
Inductive PreResult : Type :=
| PreNone
| PreSingle (v : Value)
| PreTuple (args : list Value).

(** [input[0]]. *)
Definition index0 {S} (input : list Value) : M S Value :=
  match input with
  | [] => lift (Raise IndexError)
  | x :: _ => ret x
  end.

(** [isinstance(module, QModuleMixin) and module.activations is not None],
    with the configuration when it holds. *)
Definition eligible (module : Module) : option QType :=
  if is_qmodule module then activations module else None.

(** The parameter [momentum: float = 0.9] of [calibrate_input]:
    [momentum_arg] is [None] when the caller leaves it to its default. *)
Definition momentum_used (momentum_arg : option F) : F :=
  match momentum_arg with Some k => k | None => lit 0.9 end.

(** calibrate.py, lines 53-63. *)
Definition calibrate_input (self : Calibration) (input : list Value)
    (momentum_arg : option F) : M Module PreResult :=
  let momentum := momentum_used momentum_arg in
  module <- get ;;
  match eligible module with
  | Some acts =>
      input <- index0 input ;;
      match input with
      | Quant q =>
          s <- lift (tmax (_scale q)) ;;
          modify (set_input_scale s)
      | Plain t =>
          input_scale' <- lift (absmax_scale t acts AxisOmitted) ;;
          s <- lift (_updated_scale (input_scale module) input_scale' momentum) ;;
          modify (set_input_scale s)
      end ;;
      ret (PreSingle input)
  | None => ret PreNone
  end.

(** [if isinstance(qoutput, QTensor): qoutput = qoutput.dequantize()]. *)
Definition dequantized (qoutput : Value) : Tensor :=
  match qoutput with
  | Quant q => dequantize q
  | Plain t => t
  end.

(** calibrate.py, lines 65-80. *)
Definition calibrate_output (self : Calibration) (input : list Value)
    (output : Value) : M Module (option Value) :=
  module <- get ;;
  match eligible module with
  | Some acts =>
      x <- index0 input ;;
      qoutput <- lift (qforward module x) ;;
      let qoutput := dequantized qoutput in
      output_scale' <- lift (absmax_scale qoutput acts AxisNone) ;;
      s <- lift (_updated_scale (output_scale module) output_scale' (momentum self)) ;;
      modify (set_output_scale s) ;;
      module <- get ;;
      x <- index0 input ;;
      out <- lift (forward module [x]) ;;
      ret (Some out)
  | None => ret None
  end.

(** ** The framework's global state

    The part of torch the lifecycle acts on: the stack of torch
    function modes, the two global dictionaries of module forward
    hooks (ordered, keyed by handle id) and the counter handle ids are
    drawn from.  [trace] records the framework calls in the order they
    are made. *)

Definition PreHook : Type := list Value -> M Module PreResult.
Definition PostHook : Type := list Value -> Value -> M Module (option Value).

Inductive FunctionMode : Type :=
| CalibrationMode (momentum : F)
| ForeignMode (tag : nat).

Inductive Event : Type :=
| EvPushMode
| EvPopMode
| EvRegister (d : HookDict) (i : nat)
| EvRemove (d : HookDict) (i : nat).

Record Registry : Type := mkRegistry {
  mode_stack : list FunctionMode;
  forward_pre_hooks : list (nat * PreHook);
  forward_hooks : list (nat * PostHook);
  next_id : nat;
  trace : list Event
}.

(** [d[k] = v] on an ordered dictionary: a key that is present keeps its
    place, a new key goes last. *)
Fixpoint dict_set {V} (k : nat) (v : V) (d : list (nat * V)) : list (nat * V) :=
  match d with
  | [] => [(k, v)]
  | (k', v') :: d' =>
      if Nat.eqb k' k then (k, v) :: d' else (k', v') :: dict_set k v d'
  end.

(** [if k in d: del d[k]]. *)
Definition dict_del {V} (k : nat) (d : list (nat * V)) : list (nat * V) :=
  filter (fun kv => negb (Nat.eqb (fst kv) k)) d.

Definition log (e : Event) (g : Registry) : Registry :=
  {| mode_stack := mode_stack g;
     forward_pre_hooks := forward_pre_hooks g;
     forward_hooks := forward_hooks g;
     next_id := next_id g;
     trace := trace g ++ [e] |}.

(** [TorchFunctionMode.__enter__]: push the mode. *)
Definition _push_mode (m : FunctionMode) : M Registry unit :=
  modify (fun g =>
    log EvPushMode
      {| mode_stack := m :: mode_stack g;
         forward_pre_hooks := forward_pre_hooks g;
         forward_hooks := forward_hooks g;
         next_id := next_id g;
         trace := trace g |}).

(** [TorchFunctionMode.__exit__]: pop the mode on top of the stack. *)
Definition _pop_mode : M Registry unit :=
  g <- get ;;
  match mode_stack g with
  | [] => lift (Raise RuntimeError)
  | _ :: rest =>
      modify (fun g =>
        log EvPopMode
          {| mode_stack := rest;
             forward_pre_hooks := forward_pre_hooks g;
             forward_hooks := forward_hooks g;
             next_id := next_id g;
             trace := trace g |})
  end.

(** [register_module_forward_pre_hook(hook)]. *)
Definition register_module_forward_pre_hook (hook : PreHook)
  : M Registry RemovableHandle :=
  g <- get ;;
  let handle := {| hooks_dict := PreHooks; id := next_id g |} in
  modify (fun g =>
    log (EvRegister PreHooks (id handle))
      {| mode_stack := mode_stack g;
         forward_pre_hooks := dict_set (id handle) hook (forward_pre_hooks g);
         forward_hooks := forward_hooks g;
         next_id := S (next_id g);
         trace := trace g |}) ;;
  ret handle.

(** [register_module_forward_hook(hook)]. *)
Definition register_module_forward_hook (hook : PostHook)
  : M Registry RemovableHandle :=
  g <- get ;;
  let handle := {| hooks_dict := PostHooks; id := next_id g |} in
  modify (fun g =>
    log (EvRegister PostHooks (id handle))
      {| mode_stack := mode_stack g;
         forward_pre_hooks := forward_pre_hooks g;
         forward_hooks := dict_set (id handle) hook (forward_hooks g);
         next_id := S (next_id g);
         trace := trace g |}) ;;
  ret handle.

(** [handle.remove()]. *)
Definition remove (handle : RemovableHandle) : M Registry unit :=
  modify (fun g =>
    log (EvRemove (hooks_dict handle) (id handle))
      match hooks_dict handle with
      | PreHooks =>
          {| mode_stack := mode_stack g;
             forward_pre_hooks := dict_del (id handle) (forward_pre_hooks g);
             forward_hooks := forward_hooks g;
             next_id := next_id g;
             trace := trace g |}
      | PostHooks =>
          {| mode_stack := mode_stack g;
             forward_pre_hooks := forward_pre_hooks g;
             forward_hooks := dict_del (id handle) (forward_hooks g);
             next_id := next_id g;
             trace := trace g |}
      end).

(** Reading an attribute that may not have been set. *)
Definition getattr {S A} (a : option A) : M S A :=
  match a with
  | Some x => ret x
  | None => lift (Raise AttributeError)
  end.

(** ** The scope lifecycle *)

(** calibrate.py, lines 43-46.  The hooks are the bound methods of
    [self]; the framework calls a pre-hook with the module and its
    positional inputs only, so [momentum] is left to its default.  The
    updated [self] is returned. *)
Definition __enter__ (self : Calibration) : M Registry Calibration :=
  _push_mode (CalibrationMode (momentum self)) ;;
  h_pre <- register_module_forward_pre_hook
             (fun input => calibrate_input self input None) ;;
  h_post <- register_module_forward_hook (calibrate_output self) ;;
  ret {| momentum := momentum self;
         pre_handle := Some h_pre;
         post_handle := Some h_post |}.

(** calibrate.py, lines 48-51.  [exc] is the exception the scope body
    raised, if any.  The method returns [None], which the [with] statement
    reads as false: the exception is not swallowed. *)
Definition __exit__ (self : Calibration) (exc : option exn) : M Registry bool :=
  _pop_mode ;;
  h <- getattr (pre_handle self) ;;
  remove h ;;
  h <- getattr (post_handle self) ;;
  remove h ;;
  ret false.

(** [with self: body].  The body runs forward passes: it reads the
    framework state and acts on the store [St] that holds the modules. *)
Definition with_calibration {St} (self : Calibration)
    (body : Registry -> M St unit) (g : Registry) (st : St)
  : result unit * (Calibration * Registry * St) :=
  match __enter__ self g with
  | (Raise e, g1) => (Raise e, (self, g1, st))
  | (Ok self1, g1) =>
      let (r, st1) := body g1 st in
      let exc := match r with Raise e => Some e | Ok _ => None end in
      match __exit__ self1 exc g1 with
      | (Raise e, g2) => (Raise e, (self1, g2, st1))
      | (Ok swallow, g2) =>
          ((if swallow then Ok tt else r), (self1, g2, st1))
      end
  end.

(** The events [__exit__] adds to the trace. *)
Definition exit_events (self : Calibration) (exc : option exn) (g : Registry)
  : list Event :=
  skipn (length (trace g)) (trace (snd (__exit__ self exc g))).

(** Hooks are deregistered first and the mode is popped only then: both
    dictionaries see a removal before the pop, and none after it. *)
Definition is_remove (e : Event) : bool :=
  match e with EvRemove _ _ => true | _ => false end.

Definition is_remove_from (d : HookDict) (e : Event) : bool :=
  match e, d with
  | EvRemove PreHooks _, PreHooks => true
  | EvRemove PostHooks _, PostHooks => true
  | _, _ => false
  end.

Fixpoint split_at_pop (evs : list Event) : option (list Event * list Event) :=
  match evs with
  | [] => None
  | EvPopMode :: rest => Some ([], rest)
  | e :: rest =>
      match split_at_pop rest with
      | Some (before, after) => Some (e :: before, after)
      | None => None
      end
  end.

Definition removes_before_pop (evs : list Event) : bool :=
  match split_at_pop evs with
  | None => false
  | Some (before, after) =>
      existsb (is_remove_from PreHooks) before
      && existsb (is_remove_from PostHooks) before
      && negb (existsb is_remove after)
  end.

(** The keys of a hook dictionary, and the registries the framework can
    be in: every key was drawn from the counter. *)
Definition keys {V} (d : list (nat * V)) : list nat := map fst d.

Definition well_formed (g : Registry) : Prop :=
  Forall (fun k => k < next_id g) (keys (forward_pre_hooks g))
  /\ Forall (fun k => k < next_id g) (keys (forward_hooks g)).

(** ** Calling a module

    [Module.__call__] restricted to the global hooks: every pre-hook
    runs and may replace the positional inputs (a value that is not a
    tuple is wrapped into a one-element tuple), then [forward], then
    every post-hook, which may replace the output. *)
Fixpoint run_pre_hooks (hooks : list PreHook) (args : list Value)
  : M Module (list Value) :=
  match hooks with
  | [] => ret args
  | hook :: hooks' =>
      r <- hook args ;;
      run_pre_hooks hooks'
        match r with
        | PreNone => args
        | PreSingle v => [v]
        | PreTuple args' => args'
        end
  end.

Fixpoint run_post_hooks (hooks : list PostHook) (args : list Value)
    (output : Value) : M Module Value :=
  match hooks with
  | [] => ret output
  | hook :: hooks' =>
      r <- hook args output ;;
      run_post_hooks hooks' args
        match r with
        | None => output
        | Some output' => output'
        end
  end.

Definition call_module (g : Registry) (args : list Value) : M Module Value :=
  args <- run_pre_hooks (map snd (forward_pre_hooks g)) args ;;
  module <- get ;;
  output <- lift (forward module args) ;;
  run_post_hooks (map snd (forward_hooks g)) args output.

(** A scope body that runs forward passes sees the framework only
    through the hooks that fire when it calls a module. *)
Definition observes_hooks_only {St} (body : Registry -> M St unit) : Prop :=
  forall ga gb : Registry,
    map snd (forward_pre_hooks ga) = map snd (forward_pre_hooks gb) ->
    map snd (forward_hooks ga) = map snd (forward_hooks gb) ->
    forall st : St, body ga st = body gb st.

(** One forward pass as a scope body: call the module, drop the output. *)
Definition forward_pass (args : list Value) (g : Registry) : M Module unit :=
  call_module g args ;; ret tt.

End Quanto.

(** ** An executable instance: rank 0 and rank 1 tensors of rationals

    Python floats are read as exact rationals, kept in lowest terms; a
    tensor is 0-dim or a vector.  Broadcasting is torch's, restricted to
    these ranks: a 0-dim tensor or a vector of length 1 stretches to the
    other operand, two vectors of equal length add pointwise, anything
    else raises. *)
Module Rational.

Inductive qtensor : Type :=
| Scalar0 (x : Q)
| Vec (xs : list Q).

Definition qelems (t : qtensor) : list Q :=
  match t with Scalar0 x => [x] | Vec xs => xs end.

Definition qmap (f : Q -> Q) (t : qtensor) : qtensor :=
  match t with Scalar0 x => Scalar0 (f x) | Vec xs => Vec (map f xs) end.

Definition qsmul (k : Q) (t : qtensor) : qtensor :=
  qmap (fun x => Qred (k * x)) t.

Definition qmuls (t : qtensor) (k : Q) : qtensor :=
  qmap (fun x => Qred (x * k)) t.

Fixpoint zip_add (xs ys : list Q) : list Q :=
  match xs, ys with
  | x :: xs', y :: ys' => Qred (x + y) :: zip_add xs' ys'
  | _, _ => []
  end.

Definition qadd (a b : qtensor) : result qtensor :=
  match a, b with
  | Scalar0 x, _ => Ok (qmap (fun y => Qred (x + y)) b)
  | Vec _, Scalar0 y => Ok (qmap (fun x => Qred (x + y)) a)
  | Vec [x], Vec ys => Ok (Vec (map (fun y => Qred (x + y)) ys))
  | Vec xs, Vec [y] => Ok (Vec (map (fun x => Qred (x + y)) xs))
  | Vec xs, Vec ys =>
      if Nat.eqb (length xs) (length ys) then Ok (Vec (zip_add xs ys))
      else Raise RuntimeError
  end.

Definition Qmaxb (a b : Q) : Q := if Qle_bool a b then b else a.

Definition qmax (t : qtensor) : result qtensor :=
  match qelems t with
  | [] => Raise RuntimeError
  | x :: xs => Ok (Scalar0 (fold_left Qmaxb xs x))
  end.

#[export] Instance torch : Torch := {|
  F := Q;
  lit := Qred;
  fsub := fun a b => Qred (a - b);
  feqb := Qeq_bool;
  fleb := Qle_bool;
  Tensor := qtensor;
  elems := qelems;
  smul := qsmul;
  muls := qmuls;
  tadd := qadd;
  tmax := qmax
|}.

(** Modelled from the spec: the absolute-max estimator of
    quanto/qtensor.py, which is outside calibrate.py, as the
    maximum absolute value of the tensor over the largest integer of the
    quantized type; without a reduction axis the scale is 0-dim. *)
Definition qabsmax (t : qtensor) (qmax_int : positive) (axis : AxisArg)
  : result qtensor :=
  match axis, t with
  | AxisDim 0, Vec xs =>
      Ok (Vec (map (fun x => Qred (Qabs x / (Zpos qmax_int # 1))) xs))
  | AxisDim _, _ => Raise IndexError
  | _, _ =>
      match qmax (qmap Qabs t) with
      | Ok m => Ok (qmap (fun x => Qred (x / (Zpos qmax_int # 1))) m)
      | Raise e => Raise e
      end
  end.

(** Modelled from the spec: [QTensor.dequantize], the data scaled back
    to a plain tensor (vectors of equal length, or a 0-dim scale). *)
Definition qdequantize (q : QTensor) : qtensor :=
  match _scale q, _data q with
  | Scalar0 s, d => qsmul s d
  | Vec [s], d => qsmul s d
  | Vec ss, Vec ds => Vec (map (fun sd => Qred (fst sd * snd sd)) (combine ss ds))
  | Vec ss, Scalar0 d => Vec (map (fun s => Qred (s * d)) ss)
  end.

#[export] Instance quanto : Quanto := {|
  QType := positive;
  absmax_scale := qabsmax;
  dequantize := qdequantize
|}.

(** A quantized module that doubles its input: the raw path returns a
    plain tensor, the primary path a [QTensor] carrying the current
    output scale. *)
Definition to_plain (v : Value) : qtensor :=
  match v with Plain t => t | Quant q => qdequantize q end.

Definition double_raw (_ _ : qtensor) (x : Value) : result Value :=
  Ok (Plain (qsmul 2 (to_plain x))).

Definition double_fwd (_ out_scale : qtensor) (args : list Value)
  : result Value :=
  match args with
  | [x] => Ok (Quant {| _data := qsmul 2 (to_plain x); _scale := out_scale |})
  | _ => Raise RuntimeError
  end.

Definition qdouble (acts : option positive) (s_in s_out : qtensor) : Module :=
  {| is_qmodule := true;
     activations := acts;
     input_scale := s_in;
     output_scale := s_out;
     qforward_fn := double_raw;
     forward_fn := double_fwd |}.

(** An ordinary module, not a [QModuleMixin]. *)
Definition plain_double : Module :=
  {| is_qmodule := false;
     activations := None;
     input_scale := Scalar0 1;
     output_scale := Scalar0 1;
     qforward_fn := double_raw;
     forward_fn := fun _ _ args =>
                     match args with
                     | [x] => Ok (Plain (qsmul 2 (to_plain x)))
                     | _ => Raise RuntimeError
                     end |}.

(** A quantized module whose raw path returns a [QTensor]: the doubled
    input as data under the scale 3/2, the triple of the input once
    dequantized. *)
Definition double_raw_quantized (_ _ : qtensor) (x : Value) : result Value :=
  Ok (Quant {| _data := qsmul 2 (to_plain x); _scale := Scalar0 (3 # 2) |}).

Definition requantizing (acts : option positive) (s_in s_out : qtensor)
  : Module :=
  {| is_qmodule := true;
     activations := acts;
     input_scale := s_in;
     output_scale := s_out;
     qforward_fn := double_raw_quantized;
     forward_fn := double_fwd |}.

(** A quantized module whose primary path always fails. *)
Definition brittle (s_in s_out : qtensor) : Module :=
  {| is_qmodule := true;
     activations := Some 127%positive;
     input_scale := s_in;
     output_scale := s_out;
     qforward_fn := double_raw;
     forward_fn := fun _ _ _ => Raise RuntimeError |}.

(** A framework state with nothing registered. *)
Definition empty_registry : Registry :=
  {| mode_stack := [];
     forward_pre_hooks := [];
     forward_hooks := [];
     next_id := 0;
     trace := [] |}.

End Rational.

(** * Properties *)

Unset Implicit Arguments.

(** ** The instance satisfies the laws *)

Module RationalFacts.
Import Rational.

Lemma Qmult_swap (x y : Q) : (x * y)%Q = (y * x)%Q.
Proof.
  destruct x as [a b], y as [c d]. unfold Qmult; simpl.
  now rewrite Z.mul_comm, Pos.mul_comm.
Qed.

Lemma Qmaxb_ge_l (a b : Q) : Qle_bool a (Qmaxb a b) = true.
Proof.
  unfold Qmaxb. destruct (Qle_bool a b) eqn:E; [exact E|].
  apply Qle_bool_iff, Qle_refl.
Qed.

Lemma Qmaxb_ge_r (a b : Q) : Qle_bool b (Qmaxb a b) = true.
Proof.
  unfold Qmaxb. destruct (Qle_bool a b) eqn:E.
  - apply Qle_bool_iff, Qle_refl.
  - apply Qle_bool_iff. destruct (Qlt_le_dec a b) as [H|H]; [|exact H].
    apply Qlt_le_weak, Qle_bool_iff in H. congruence.
Qed.

Lemma Qle_bool_trans (a b c : Q) :
  Qle_bool a b = true -> Qle_bool b c = true -> Qle_bool a c = true.
Proof.
  rewrite !Qle_bool_iff. apply Qle_trans.
Qed.

(** The running maximum is one of the values seen and bounds them all. *)
Lemma fold_Qmaxb_spec (xs : list Q) (x : Q) :
  In (fold_left Qmaxb xs x) (x :: xs)
  /\ Forall (fun y => Qle_bool y (fold_left Qmaxb xs x) = true) (x :: xs).
Proof.
  revert x. induction xs as [|y ys IH]; intros x; simpl.
  - split; [now left|]. constructor; [|constructor].
    apply Qle_bool_iff, Qle_refl.
  - destruct (IH (Qmaxb x y)) as [Hin Hall]. split.
    + destruct Hin as [Hin|Hin]; [|now right; right].
      rewrite <- Hin. unfold Qmaxb. destruct (Qle_bool x y); auto.
    + inversion Hall as [|? ? Hm Hys]; subst.
      constructor; [|constructor]; try assumption.
      * eapply Qle_bool_trans; [apply Qmaxb_ge_l|exact Hm].
      * eapply Qle_bool_trans; [apply Qmaxb_ge_r|exact Hm].
Qed.

#[export] Instance torch_laws : TorchLaws torch.
Proof.
  constructor.
  - intros p q H. simpl. now apply Qred_complete.
  - intros t k. cbv [muls smul torch qmuls qsmul qmap].
    destruct t as [x|xs].
    + now rewrite Qmult_swap.
    + f_equal. apply map_ext. intros a. now rewrite Qmult_swap.
  - intros t. simpl. unfold qmax.
    destruct (qelems t) as [|x xs] eqn:E; [reflexivity|].
    exists (fold_left Qmaxb xs x). split; [reflexivity|].
    apply fold_Qmaxb_spec.
Qed.

#[export] Instance quanto_laws : QuantoLaws quanto.
Proof.
  constructor. intros t acts s. simpl. unfold qabsmax, qmax.
  destruct (qelems (qmap Qabs t)); [discriminate|].
  intros H. injection H as <-. reflexivity.
Qed.

End RationalFacts.

(** ** The scale update *)

Section ScaleUpdateFacts.

Context {T : Torch}.

Lemma torch_all_eq_sentinel (scale : Tensor) :
  torch_all (tensor_eq_scalar scale (lit 1)) = true <-> is_sentinel scale.
Proof.
  unfold torch_all, tensor_eq_scalar, is_sentinel.
  rewrite forallb_forall, Forall_forall. split.
  - intros H x Hx. apply H, in_map_iff. now exists x.
  - intros H b Hb. apply in_map_iff in Hb as [x [<- Hx]]. now apply H.
Qed.

Lemma updated_scale_sentinel (scale new_scale : Tensor) (momentum : F) :
  is_sentinel scale -> _updated_scale scale new_scale momentum = Ok new_scale.
Proof.
  intros H. apply torch_all_eq_sentinel in H.
  unfold _updated_scale. now rewrite H.
Qed.

Lemma updated_scale_average (scale new_scale : Tensor) (momentum : F) :
  ~ is_sentinel scale ->
  _updated_scale scale new_scale momentum =
  tadd (smul momentum scale) (muls new_scale (fsub (lit 1.0) momentum)).
Proof.
  intros H. unfold _updated_scale.
  destruct (torch_all _) eqn:E; [|reflexivity].
  apply torch_all_eq_sentinel in E. contradiction.
Qed.

(** C1. When every element of the current scale equals 1 the update
    returns [new_scale] as it is; otherwise it returns
    [momentum * scale + (1 - momentum) * new_scale], for every momentum
    and every new scale (the sum raises exactly when the shapes do not
    broadcast). *)
Theorem updated_scale_spec {L : TorchLaws T}
    (scale new_scale : Tensor) (momentum : F) :
  (is_sentinel scale ->
   _updated_scale scale new_scale momentum = Ok new_scale)
  /\ (~ is_sentinel scale ->
      _updated_scale scale new_scale momentum =
      tadd (smul momentum scale) (smul (fsub (lit 1) momentum) new_scale)).
Proof.
  split.
  - apply updated_scale_sentinel.
  - intros H. rewrite updated_scale_average by exact H.
    rewrite muls_smul. now rewrite (@lit_Qeq T L 1.0%Q 1%Q) by reflexivity.
Qed.

End ScaleUpdateFacts.

(** ** The two hooks *)

Section HookFacts.

Context {T : Torch} {Qo : Quanto}.

Ltac run_hook :=
  cbv [calibrate_input calibrate_output index0 bind get modify lift ret].

Lemma calibrate_input_skips (self : Calibration) (module : Module)
    (input : list Value) (mom : option F) :
  eligible module = None ->
  calibrate_input self input mom module = (Ok PreNone, module).
Proof. intros H. run_hook. now rewrite H. Qed.

Lemma calibrate_output_skips (self : Calibration) (module : Module)
    (input : list Value) (output : Value) :
  eligible module = None ->
  calibrate_output self input output module = (Ok None, module).
Proof. intros H. run_hook. now rewrite H. Qed.

Lemma calibrate_input_empty (self : Calibration) (module : Module)
    (acts : QType) (mom : option F) :
  eligible module = Some acts ->
  calibrate_input self [] mom module = (Raise IndexError, module).
Proof. intros H. run_hook. now rewrite H. Qed.

Lemma calibrate_output_empty (self : Calibration) (module : Module)
    (acts : QType) (output : Value) :
  eligible module = Some acts ->
  calibrate_output self [] output module = (Raise IndexError, module).
Proof. intros H. run_hook. now rewrite H. Qed.

Lemma calibrate_input_plain (self : Calibration) (module : Module)
    (acts : QType) (t : Tensor) (rest : list Value) (mom : option F) :
  eligible module = Some acts ->
  calibrate_input self (Plain t :: rest) mom module =
  match absmax_scale t acts AxisOmitted with
  | Raise e => (Raise e, module)
  | Ok candidate =>
      match _updated_scale (input_scale module) candidate (momentum_used mom) with
      | Raise e => (Raise e, module)
      | Ok s => (Ok (PreSingle (Plain t)), set_input_scale s module)
      end
  end.
Proof.
  intros H. run_hook. rewrite H.
  destruct (absmax_scale t acts AxisOmitted); [|reflexivity].
  destruct (_updated_scale _ _ _); reflexivity.
Qed.

Lemma calibrate_input_quant (self : Calibration) (module : Module)
    (acts : QType) (q : QTensor) (rest : list Value) (mom : option F) :
  eligible module = Some acts ->
  calibrate_input self (Quant q :: rest) mom module =
  match tmax (_scale q) with
  | Raise e => (Raise e, module)
  | Ok s => (Ok (PreSingle (Quant q)), set_input_scale s module)
  end.
Proof.
  intros H. run_hook. rewrite H.
  destruct (tmax (_scale q)); reflexivity.
Qed.

Lemma calibrate_output_eq (self : Calibration) (module : Module)
    (acts : QType) (x : Value) (rest : list Value) (output : Value) :
  eligible module = Some acts ->
  calibrate_output self (x :: rest) output module =
  match qforward module x with
  | Raise e => (Raise e, module)
  | Ok qoutput =>
      match absmax_scale (dequantized qoutput) acts AxisNone with
      | Raise e => (Raise e, module)
      | Ok candidate =>
          match _updated_scale (output_scale module) candidate (momentum self) with
          | Raise e => (Raise e, module)
          | Ok s =>
              match forward (set_output_scale s module) [x] with
              | Raise e => (Raise e, set_output_scale s module)
              | Ok out => (Ok (Some out), set_output_scale s module)
              end
          end
      end
  end.
Proof.
  intros H. run_hook. rewrite H.
  destruct (qforward module x); [|reflexivity].
  destruct (absmax_scale _ acts AxisNone); [|reflexivity].
  destruct (_updated_scale _ _ _); [|reflexivity].
  destruct (forward _ _); reflexivity.
Qed.

(** C2. On an eligible module the output hook recomputes
    [qforward(x)] from the first positional input whatever [output] it was
    handed; a quantized result [q] is dequantized, so the estimator sees
    [q.dequantize()], and a plain result is taken as it is; the absmax
    candidate is taken with [axis=None] (a single scalar); the scale
    update under the controller's momentum is stored in [output_scale];
    and the hook returns [forward(x)] evaluated on the module with the
    new scale. *)
Theorem calibrate_output_spec {QL : QuantoLaws Qo}
    (self : Calibration) (module : Module) (acts : QType)
    (x : Value) (rest : list Value) (output : Value)
    (qoutput : Value) (candidate s : Tensor) :
  eligible module = Some acts ->
  qforward module x = Ok qoutput ->
  absmax_scale
    match qoutput with
    | Quant q => dequantize q
    | Plain t => t
    end acts AxisNone = Ok candidate ->
  _updated_scale (output_scale module) candidate (momentum self) = Ok s ->
  length (elems candidate) = 1
  /\ output_scale (snd (calibrate_output self (x :: rest) output module)) = s
  /\ calibrate_output self (x :: rest) output module =
     (match forward (set_output_scale s module) [x] with
      | Ok out => Ok (Some out)
      | Raise e => Raise e
      end, set_output_scale s module).
Proof.
  intros He Hq Ha Hu. split; [eapply absmax_none_scalar; exact Ha|].
  rewrite (calibrate_output_eq self module acts x rest output He), Hq.
  unfold dequantized. rewrite Ha, Hu.
  destruct (forward (set_output_scale s module) [x]); split; reflexivity.
Qed.

(** C4. On an eligible module and a plain first input, the input hook
    combines the absmax candidate with the current [input_scale] under
    the momentum of its own parameter, 0.9 when the parameter is left
    out, whatever the controller; the output hook combines under the
    controller's momentum.  A controller built with any momentum [m]
    still updates [input_scale] with 0.9 when the hook is called without
    a momentum. *)
Theorem calibrate_input_momentum
    (self : Calibration) (module : Module) (acts : QType)
    (t : Tensor) (rest : list Value) (mom : option F) :
  eligible module = Some acts ->
  calibrate_input self (Plain t :: rest) mom module =
    match absmax_scale t acts AxisOmitted with
    | Raise e => (Raise e, module)
    | Ok candidate =>
        match _updated_scale (input_scale module) candidate
                (match mom with Some k => k | None => lit 0.9 end) with
        | Raise e => (Raise e, module)
        | Ok s => (Ok (PreSingle (Plain t)), set_input_scale s module)
        end
    end
  /\ (forall self' : Calibration,
        calibrate_input self' (Plain t :: rest) mom module =
        calibrate_input self (Plain t :: rest) mom module)
  /\ (forall (m : F) (candidate : Tensor),
        absmax_scale t acts AxisOmitted = Ok candidate ->
        match _updated_scale (input_scale module) candidate (lit 0.9) with
        | Raise e =>
            calibrate_input (__init__ (Some m)) (Plain t :: rest) None module =
            (Raise e, module)
        | Ok s =>
            input_scale
              (snd (calibrate_input (__init__ (Some m)) (Plain t :: rest) None
                      module)) = s
        end)
  /\ (forall (x : Value) (rest' : list Value) (output qoutput : Value)
             (candidate : Tensor),
        qforward module x = Ok qoutput ->
        absmax_scale (dequantized qoutput) acts AxisNone = Ok candidate ->
        match _updated_scale (output_scale module) candidate (momentum self) with
        | Raise e =>
            calibrate_output self (x :: rest') output module = (Raise e, module)
        | Ok s =>
            output_scale
              (snd (calibrate_output self (x :: rest') output module)) = s
        end).
Proof.
  intros He. split; [|split; [|split]].
  - apply (calibrate_input_plain self module acts t rest mom He).
  - intros self'. reflexivity.
  - intros m candidate Ha.
    rewrite (calibrate_input_plain (__init__ (Some m)) module acts t rest None He), Ha.
    simpl. destruct (_updated_scale _ _ _); reflexivity.
  - intros x rest' output qoutput candidate Hq Ha.
    rewrite (calibrate_output_eq self module acts x rest' output He), Hq, Ha.
    destruct (_updated_scale _ _ _); [|reflexivity].
    destruct (forward _ _); reflexivity.
Qed.

(** C5. On an eligible module and a quantized first input (with a
    scale that has at least one element), the input hook stores
    [torch.max] of the input's scale in [input_scale]: a single value
    that occurs in the scale and bounds every element of it.  The stored
    scale depends neither on the momentum nor on the module's previous
    [input_scale]. *)
Theorem calibrate_input_adopts_max {L : TorchLaws T}
    (self : Calibration) (module : Module) (acts : QType)
    (q : QTensor) (rest : list Value) (mom : option F) :
  eligible module = Some acts ->
  elems (_scale q) <> [] ->
  exists (s : Tensor) (mx : F),
    calibrate_input self (Quant q :: rest) mom module =
      (Ok (PreSingle (Quant q)), set_input_scale s module)
    /\ elems s = [mx]
    /\ In mx (elems (_scale q))
    /\ Forall (fun x => fleb x mx = true) (elems (_scale q))
    /\ (forall (self' : Calibration) (module' : Module) (acts' : QType)
               (rest' : list Value) (mom' : option F),
          eligible module' = Some acts' ->
          input_scale
            (snd (calibrate_input self' (Quant q :: rest') mom' module')) = s).
Proof.
  intros He Hne. pose proof (tmax_spec (_scale q)) as Hmax.
  destruct (tmax (_scale q)) as [s|e] eqn:E; [|contradiction].
  destruct Hmax as (mx & Hs & Hin & Hall).
  exists s, mx. split; [|split; [|split; [|split]]]; try assumption.
  - rewrite (calibrate_input_quant self module acts q rest mom He), E. reflexivity.
  - intros self' module' acts' rest' mom' He'.
    rewrite (calibrate_input_quant self' module' acts' q rest' mom' He'), E. reflexivity.
Qed.

(** C9. On an eligible module the value the input hook returns is the
    first positional input alone, not the tuple: after the hook the
    module is called on that one input, the further positional inputs
    are gone. *)
Theorem calibrate_input_returns_first
    (self : Calibration) (module : Module) (acts : QType)
    (x : Value) (rest : list Value) (mom : option F) :
  eligible module = Some acts ->
  (forall (r : PreResult) (module' : Module),
      calibrate_input self (x :: rest) mom module = (Ok r, module') ->
      r = PreSingle x /\ r <> PreTuple (x :: rest))
  /\ (forall (args : list Value) (module' : Module),
        run_pre_hooks [fun input => calibrate_input self input None]
          (x :: rest) module = (Ok args, module') ->
        args = [x]).
Proof.
  intros He.
  assert (Hret : forall mom' r module',
             calibrate_input self (x :: rest) mom' module = (Ok r, module') ->
             r = PreSingle x).
  { intros mom' r module'. destruct x as [t|q].
    - rewrite (calibrate_input_plain self module acts t rest mom' He).
      destruct (absmax_scale t acts AxisOmitted); [|discriminate].
      destruct (_updated_scale _ _ _); [|discriminate]. congruence.
    - rewrite (calibrate_input_quant self module acts q rest mom' He).
      destruct (tmax _); [|discriminate]. congruence. }
  split.
  - intros r module' H. apply Hret in H. subst r. split; [reflexivity|discriminate].
  - intros args module'. cbn [run_pre_hooks]. unfold bind.
    destruct (calibrate_input self (x :: rest) None module) as [[r|e] m1] eqn:E;
      [|discriminate].
    apply Hret in E. subst r. unfold ret. congruence.
Qed.

(** C10. Both hooks read [input[0]] unguarded: on an eligible module
    called with no positional input each raises [IndexError] (and leaves
    the module as it was), so a hook that returns was given at least one
    positional input. *)
Theorem hooks_index_unguarded
    (self : Calibration) (module : Module) (acts : QType)
    (mom : option F) (output : Value) :
  eligible module = Some acts ->
  calibrate_input self [] mom module = (Raise IndexError, module)
  /\ calibrate_output self [] output module = (Raise IndexError, module)
  /\ (forall input : list Value,
        is_ok (fst (calibrate_input self input mom module)) = true ->
        input <> [])
  /\ (forall input : list Value,
        is_ok (fst (calibrate_output self input output module)) = true ->
        input <> []).
Proof.
  intros He. split; [|split; [|split]].
  - apply (calibrate_input_empty self module acts mom He).
  - apply (calibrate_output_empty self module acts output He).
  - intros input H ->. rewrite (calibrate_input_empty self module acts mom He) in H.
    discriminate.
  - intros input H ->. rewrite (calibrate_output_empty self module acts output He) in H.
    discriminate.
Qed.

End HookFacts.

(** ** Hook dictionaries *)

Section DictFacts.

Context {V : Type}.

Lemma dict_set_fresh (k : nat) (v : V) (d : list (nat * V)) :
  ~ In k (keys d) -> dict_set k v d = d ++ [(k, v)].
Proof.
  induction d as [|[k' v'] d IH]; intros H; simpl; [reflexivity|].
  destruct (Nat.eqb_spec k' k) as [->|Hne].
  - exfalso. apply H. now left.
  - f_equal. apply IH. intros Hin. apply H. now right.
Qed.

Lemma dict_del_absent (k : nat) (d : list (nat * V)) :
  ~ In k (keys d) -> dict_del k d = d.
Proof.
  induction d as [|[k' v'] d IH]; intros H; simpl; [reflexivity|].
  destruct (Nat.eqb_spec k' k) as [->|Hne]; simpl.
  - exfalso. apply H. now left.
  - f_equal. apply IH. intros Hin. apply H. now right.
Qed.

Lemma dict_del_app (k : nat) (d1 d2 : list (nat * V)) :
  dict_del k (d1 ++ d2) = dict_del k d1 ++ dict_del k d2.
Proof. apply filter_app. Qed.

(** Removing a key that was registered fresh restores the dictionary. *)
Lemma dict_del_set_fresh (k : nat) (v : V) (d : list (nat * V)) :
  ~ In k (keys d) -> dict_del k (dict_set k v d) = d.
Proof.
  intros H. rewrite (dict_set_fresh k v d H), dict_del_app.
  rewrite (dict_del_absent k d H). simpl.
  rewrite Nat.eqb_refl. simpl. apply app_nil_r.
Qed.

(** A removed key is gone, whatever the dictionary held. *)
Lemma dict_del_gone (k : nat) (d : list (nat * V)) : ~ In k (keys (dict_del k d)).
Proof.
  unfold keys, dict_del. intros H.
  apply in_map_iff in H as [[k' v'] [Hk Hin]]. simpl in Hk. subst k'.
  apply filter_In in Hin as [_ Hf]. simpl in Hf.
  rewrite Nat.eqb_refl in Hf. discriminate.
Qed.

Lemma below_not_in (n : nat) (ks : list nat) :
  Forall (fun k => k < n) ks -> ~ In n ks /\ ~ In (S n) ks.
Proof.
  intros H. rewrite Forall_forall in H.
  split; intros Hin; apply H in Hin; lia.
Qed.

End DictFacts.

(** ** The scope lifecycle *)

Section LifecycleFacts.

Context {T : Torch} {Qo : Quanto}.

Ltac run_framework :=
  cbv [__enter__ __exit__ _push_mode _pop_mode register_module_forward_pre_hook
       register_module_forward_hook remove getattr log
       bind get modify lift ret]; cbn.

(** [self] once [__enter__] has run on [g]. *)
Local Abbreviation entered self g :=
  {| momentum := momentum self;
     pre_handle := Some {| hooks_dict := PreHooks; id := next_id g |};
     post_handle := Some {| hooks_dict := PostHooks; id := S (next_id g) |} |}.

Lemma enter_result (self : Calibration) (g : Registry) :
  fst (__enter__ self g) = Ok (entered self g).
Proof. reflexivity. Qed.

Lemma enter_registry (self : Calibration) (g : Registry) :
  snd (__enter__ self g) =
  {| mode_stack := CalibrationMode (momentum self) :: mode_stack g;
     forward_pre_hooks :=
       dict_set (next_id g) (fun input => calibrate_input self input None)
         (forward_pre_hooks g);
     forward_hooks :=
       dict_set (S (next_id g)) (calibrate_output self) (forward_hooks g);
     next_id := S (S (next_id g));
     trace := trace g ++ [EvPushMode; EvRegister PreHooks (next_id g);
                          EvRegister PostHooks (S (next_id g))] |}.
Proof.
  run_framework. f_equal. now rewrite <- !app_assoc.
Qed.

Lemma exit_after_enter (self : Calibration) (g : Registry) (exc : option exn) :
  __exit__ (entered self g) exc (snd (__enter__ self g)) =
  (Ok false,
   {| mode_stack := mode_stack g;
      forward_pre_hooks :=
        dict_del (next_id g)
          (dict_set (next_id g) (fun input => calibrate_input self input None)
             (forward_pre_hooks g));
      forward_hooks :=
        dict_del (S (next_id g))
          (dict_set (S (next_id g)) (calibrate_output self) (forward_hooks g));
      next_id := S (S (next_id g));
      trace := trace g ++ [EvPushMode; EvRegister PreHooks (next_id g);
                           EvRegister PostHooks (S (next_id g));
                           EvPopMode; EvRemove PreHooks (next_id g);
                           EvRemove PostHooks (S (next_id g))] |}).
Proof.
  run_framework. do 2 f_equal. now rewrite <- !app_assoc.
Qed.

Lemma enter_eq (self : Calibration) (g : Registry) :
  __enter__ self g = (Ok (entered self g), snd (__enter__ self g)).
Proof. reflexivity. Qed.

(** The [with] statement: the body runs in the entered registry, its
    outcome is the outcome of the statement, and [__exit__] has run. *)
Lemma with_calibration_eq {St : Type} (self : Calibration)
    (body : Registry -> M St unit) (g : Registry) (st : St) :
  with_calibration self body g st =
  (fst (body (snd (__enter__ self g)) st),
   (entered self g,
    snd (__exit__ (entered self g) None (snd (__enter__ self g))),
    snd (body (snd (__enter__ self g)) st))).
Proof.
  unfold with_calibration. rewrite (enter_eq self g) at 1.
  destruct (body (snd (__enter__ self g)) st) as [r st1].
  rewrite !(exit_after_enter self g). simpl.
  destruct r; reflexivity.
Qed.

Lemma scope_restores (self : Calibration) (g : Registry) :
  well_formed g ->
  let g2 := snd (__exit__ (entered self g) None (snd (__enter__ self g))) in
  forward_pre_hooks g2 = forward_pre_hooks g
  /\ forward_hooks g2 = forward_hooks g
  /\ mode_stack g2 = mode_stack g.
Proof.
  intros [Hpre Hpost]. rewrite (exit_after_enter self g None). simpl.
  apply below_not_in in Hpre as [Hpre _].
  apply below_not_in in Hpost as [_ Hpost].
  split; [|split].
  - now apply dict_del_set_fresh.
  - now apply dict_del_set_fresh.
  - reflexivity.
Qed.

Lemma scope_well_formed (self : Calibration) (g : Registry) :
  well_formed g ->
  well_formed (snd (__exit__ (entered self g) None (snd (__enter__ self g)))).
Proof.
  intros H. destruct (scope_restores self g H) as (Hpre & Hpost & _).
  destruct H as [H1 H2]. unfold well_formed. rewrite Hpre, Hpost.
  rewrite (exit_after_enter self g None). simpl.
  split; eapply Forall_impl; try eassumption; simpl; intros; lia.
Qed.

Lemma call_module_hooks (g g' : Registry) (args : list Value) (module : Module) :
  map snd (forward_pre_hooks g') = map snd (forward_pre_hooks g) ->
  map snd (forward_hooks g') = map snd (forward_hooks g) ->
  call_module g' args module = call_module g args module.
Proof. intros H1 H2. unfold call_module. now rewrite H1, H2. Qed.

Lemma call_module_no_hooks (g : Registry) (args : list Value) (module : Module) :
  forward_pre_hooks g = [] ->
  forward_hooks g = [] ->
  call_module g args module = (forward module args, module).
Proof.
  intros H1 H2. unfold call_module. rewrite H1, H2.
  cbv [map run_pre_hooks run_post_hooks bind get lift ret].
  destruct (forward module args); reflexivity.
Qed.

(** C3, as the code has it.  A calibration scope makes six framework
    calls, in this order whatever the body does: entry pushes the mode
    and then registers the pre-hook and the post-hook; exit pops the mode
    first and then removes the pre-hook and the post-hook.  Teardown runs
    in the order of setup, not in its reverse. *)
Theorem scope_event_order {St : Type} (self : Calibration)
    (body : Registry -> M St unit) (g : Registry) (st : St) :
  let n := next_id g in
  trace (snd (__enter__ self g)) =
    trace g ++ [EvPushMode; EvRegister PreHooks n; EvRegister PostHooks (S n)]
  /\ exit_events (entered self g) None (snd (__enter__ self g)) =
     [EvPopMode; EvRemove PreHooks n; EvRemove PostHooks (S n)]
  /\ trace (snd (fst (snd (with_calibration self body g st)))) =
     trace g ++ [EvPushMode; EvRegister PreHooks n; EvRegister PostHooks (S n);
                 EvPopMode; EvRemove PreHooks n; EvRemove PostHooks (S n)].
Proof.
  intros n. split; [|split].
  - now rewrite enter_registry.
  - unfold exit_events. rewrite (exit_after_enter self g None), enter_registry.
    cbn [snd trace]. subst n.
    replace (trace g ++ [EvPushMode; EvRegister PreHooks (next_id g);
                         EvRegister PostHooks (S (next_id g)); EvPopMode;
                         EvRemove PreHooks (next_id g);
                         EvRemove PostHooks (S (next_id g))])
      with ((trace g ++ [EvPushMode; EvRegister PreHooks (next_id g);
                         EvRegister PostHooks (S (next_id g))])
            ++ [EvPopMode; EvRemove PreHooks (next_id g);
                EvRemove PostHooks (S (next_id g))])
      by (now rewrite <- app_assoc).
    rewrite skipn_app, skipn_all, Nat.sub_diag. reflexivity.
  - rewrite with_calibration_eq. cbn [fst snd].
    now rewrite (exit_after_enter self g None).
Qed.

(** C6. On a module that is not a quantized module, or whose activation
    quantization is absent, both hooks return nothing and leave the
    module, its two scales included, as it was; called under a registry
    that holds the two calibration hooks, the module runs its own
    [forward] on the inputs it was given and returns that output. *)
Theorem hooks_skip_other_modules
    (self : Calibration) (module : Module) (g : Registry) :
  eligible module = None ->
  map snd (forward_pre_hooks g) = [fun input => calibrate_input self input None] ->
  map snd (forward_hooks g) = [calibrate_output self] ->
  (is_qmodule module = false \/ activations module = None)
  /\ (forall (input : list Value) (mom : option F),
        calibrate_input self input mom module = (Ok PreNone, module))
  /\ (forall (input : list Value) (output : Value),
        calibrate_output self input output module = (Ok None, module))
  /\ (forall args : list Value,
        call_module g args module = (forward module args, module)).
Proof.
  intros He Hpre Hpost. split; [|split; [|split]].
  - unfold eligible in He. destruct (is_qmodule module); auto.
  - intros input mom. now apply calibrate_input_skips.
  - intros input output. now apply calibrate_output_skips.
  - intros args. unfold call_module. rewrite Hpre, Hpost.
    cbn [run_pre_hooks run_post_hooks]. unfold bind at 1 2.
    rewrite (calibrate_input_skips self module args None He).
    cbv [ret get lift bind].
    destruct (forward module args) as [out|e]; [|reflexivity].
    now rewrite (calibrate_output_skips self module args out He).
Qed.

(** C7. When the scope body raises, [__exit__] still runs: the
    statement raises the body's exception, both handles of the controller
    are out of their dictionaries, the two dictionaries and the mode
    stack are what they were before the scope, and a later call of a
    module behaves as it did before the scope; with no other hook
    registered it leaves the module, its scales included, untouched. *)
Theorem exit_runs_on_error {St : Type} (self : Calibration)
    (body : Registry -> M St unit) (g : Registry) (st st1 : St) (e : exn) :
  well_formed g ->
  body (snd (__enter__ self g)) st = (Raise e, st1) ->
  exists (self1 : Calibration) (g2 : Registry) (h_pre h_post : RemovableHandle),
    with_calibration self body g st = (Raise e, (self1, g2, st1))
    /\ pre_handle self1 = Some h_pre /\ post_handle self1 = Some h_post
    /\ ~ In (id h_pre) (keys (forward_pre_hooks g2))
    /\ ~ In (id h_post) (keys (forward_hooks g2))
    /\ forward_pre_hooks g2 = forward_pre_hooks g
    /\ forward_hooks g2 = forward_hooks g
    /\ mode_stack g2 = mode_stack g
    /\ (forall (args : list Value) (module : Module),
          call_module g2 args module = call_module g args module)
    /\ (forward_pre_hooks g = [] -> forward_hooks g = [] ->
        forall (args : list Value) (module : Module),
          snd (call_module g2 args module) = module).
Proof.
  intros Hwf Hbody.
  destruct (scope_restores self g Hwf) as (Hpre & Hpost & Hmode).
  exists (entered self g),
         (snd (__exit__ (entered self g) None (snd (__enter__ self g)))),
         {| hooks_dict := PreHooks; id := next_id g |},
         {| hooks_dict := PostHooks; id := S (next_id g) |}.
  split; [|split; [|split; [|split; [|split; [|split; [|split; [|split; [|split]]]]]]]];
    try assumption; try reflexivity.
  - rewrite with_calibration_eq, Hbody. reflexivity.
  - rewrite (exit_after_enter self g None). cbn [snd forward_pre_hooks id].
    apply dict_del_gone.
  - rewrite (exit_after_enter self g None). cbn [snd forward_hooks id].
    apply dict_del_gone.
  - intros args module. apply call_module_hooks; now f_equal.
  - intros H1 H2 args module.
    rewrite call_module_no_hooks by congruence. reflexivity.
Qed.

(** C8. Two scopes one after the other, on a registry whose keys were
    all drawn from the counter.  After the first scope the dictionaries
    and the mode stack are back to what they were; inside the second
    scope each dictionary holds exactly one hook more than before, the
    one just registered; after the second scope they are back again; and
    the second body, which sees the framework through the hooks that
    fire, ends as it would in a single scope entered from the initial
    registry. *)
Theorem sequential_scopes {St : Type} (self : Calibration)
    (body1 body2 : Registry -> M St unit) (g : Registry) (st : St) :
  well_formed g ->
  observes_hooks_only body2 ->
  let first := with_calibration self body1 g st in
  let self1 := fst (fst (snd first)) in
  let g1 := snd (fst (snd first)) in
  let st1 := snd (snd first) in
  let inside := snd (__enter__ self1 g1) in
  let second := with_calibration self1 body2 g1 st1 in
  let g2 := snd (fst (snd second)) in
  (forward_pre_hooks g1 = forward_pre_hooks g
   /\ forward_hooks g1 = forward_hooks g
   /\ mode_stack g1 = mode_stack g)
  /\ (forward_pre_hooks inside =
        forward_pre_hooks g
        ++ [(next_id g1, fun input => calibrate_input self1 input None)]
      /\ forward_hooks inside =
         forward_hooks g ++ [(S (next_id g1), calibrate_output self1)])
  /\ (forward_pre_hooks g2 = forward_pre_hooks g
      /\ forward_hooks g2 = forward_hooks g
      /\ mode_stack g2 = mode_stack g)
  /\ (let alone := with_calibration self body2 g st1 in
      fst second = fst alone /\ snd (snd second) = snd (snd alone)).
Proof.
  intros Hwf Hobs first self1 g1 st1 inside second g2.
  assert (Hfirst : first =
            (fst (body1 (snd (__enter__ self g)) st),
             (entered self g,
              snd (__exit__ (entered self g) None (snd (__enter__ self g))),
              snd (body1 (snd (__enter__ self g)) st))))
    by apply with_calibration_eq.
  assert (Hself1 : self1 = entered self g) by (unfold self1; now rewrite Hfirst).
  assert (Hg1 : g1 = snd (__exit__ (entered self g) None (snd (__enter__ self g))))
    by (unfold g1; now rewrite Hfirst).
  destruct (scope_restores self g Hwf) as (Hpre & Hpost & Hmode).
  rewrite <- Hg1 in Hpre, Hpost, Hmode.
  assert (Hwf1 : well_formed g1) by (rewrite Hg1; now apply scope_well_formed).
  destruct (scope_restores self1 g1 Hwf1) as (Hpre2 & Hpost2 & Hmode2).
  assert (Hsecond : second =
            (fst (body2 inside st1),
             (entered self1 g1,
              snd (__exit__ (entered self1 g1) None inside),
              snd (body2 inside st1))))
    by apply with_calibration_eq.
  assert (Hin_pre : forward_pre_hooks inside =
            forward_pre_hooks g
            ++ [(next_id g1, fun input => calibrate_input self1 input None)]).
  { unfold inside. rewrite enter_registry. cbn [forward_pre_hooks].
    rewrite <- Hpre. apply dict_set_fresh.
    destruct Hwf1 as [H _]. now apply below_not_in in H as [H _]. }
  assert (Hin_post : forward_hooks inside =
            forward_hooks g ++ [(S (next_id g1), calibrate_output self1)]).
  { unfold inside. rewrite enter_registry. cbn [forward_hooks].
    rewrite <- Hpost. apply dict_set_fresh.
    destruct Hwf1 as [_ H]. now apply below_not_in in H as [_ H]. }
  split; [|split; [|split]].
  - now repeat split.
  - now split.
  - unfold g2. rewrite Hsecond. cbn [fst snd]. unfold inside.
    rewrite Hpre2, Hpost2, Hmode2. now repeat split.
  - cbv zeta. rewrite (with_calibration_eq self body2 g st1).
    fold second. rewrite Hsecond. cbn [fst snd].
    assert (Hsame : body2 inside st1 = body2 (snd (__enter__ self g)) st1).
    { apply Hobs.
      - rewrite Hin_pre. rewrite enter_registry. cbn [forward_pre_hooks].
        destruct Hwf as [H _]. apply below_not_in in H as [H _].
        rewrite (dict_set_fresh _ _ _ H), !map_app. reflexivity.
      - rewrite Hin_post. rewrite enter_registry. cbn [forward_hooks].
        destruct Hwf as [_ H]. apply below_not_in in H as [_ H].
        rewrite (dict_set_fresh _ _ _ H), !map_app. cbn [map snd].
        now rewrite Hself1. }
    now rewrite Hsame.
Qed.

End LifecycleFacts.

(** ** The properties at work on rational tensors *)

Module Examples.
Import Rational RationalFacts.

Local Open Scope Q_scope.

(** A controller with momentum 1/2, a quantized module that was never
    calibrated, one that was, and a batch whose absolute maximum is 254,
    2 after division by 127. *)
Local Abbreviation half := (__init__ (T:=torch) (Some (1 # 2))).
Local Abbreviation fresh_module := (qdouble (Some 127%positive) (Scalar0 1) (Scalar0 1)).
Local Abbreviation seen_module := (qdouble (Some 127%positive) (Scalar0 2) (Scalar0 2)).
Local Abbreviation batch := (Plain (T:=torch) (Vec [1; -254; 3])).
Local Abbreviation qbatch :=
  (Quant (mkQTensor (T:=torch) (Vec [10; 20; 30]) (Vec [1.0; 3.0; 2.0]))).

Lemma well_formed_empty : well_formed empty_registry.
Proof. split; constructor. Defined.

Lemma forward_pass_observes (args : list Value) :
  observes_hooks_only (forward_pass args).
Proof.
  intros ga gb Hpre Hpost st. unfold forward_pass, bind.
  now rewrite (call_module_hooks gb ga args st Hpre Hpost).
Defined.

(** The scenarios of the specification: a first batch with candidate 2
    sets the scale to 2, a second one with candidate 4 moves it to 2.2. *)
Lemma updated_scale_spec_witness :
  _updated_scale (T:=torch) (Scalar0 1) (Scalar0 2) 0.9 = Ok (Scalar0 2)
  /\ _updated_scale (T:=torch) (Scalar0 2) (Scalar0 4) 0.9
     = Ok (Scalar0 (11 # 5)).
Proof.
  split.
  - apply (updated_scale_spec (T:=torch) (Scalar0 1) (Scalar0 2) 0.9).
    repeat constructor.
  - destruct (updated_scale_spec (T:=torch) (Scalar0 2) (Scalar0 4) 0.9) as [_ H].
    rewrite H; [reflexivity|].
    intros Hs. inversion Hs as [|? ? Hx]. discriminate Hx.
Defined.

Lemma calibrate_output_spec_witness :
  output_scale
    (snd (calibrate_output half [batch; batch] (Plain (T:=torch) (Scalar0 0))
            (requantizing (Some 127%positive) (Scalar0 2) (Scalar0 2))))
  = Scalar0 4.
Proof.
  apply (calibrate_output_spec half
           (requantizing (Some 127%positive) (Scalar0 2) (Scalar0 2))
           127%positive batch [batch] (Plain (T:=torch) (Scalar0 0))
           (Quant (mkQTensor (T:=torch) (Vec [2; -508; 6]) (Scalar0 (3 # 2))))
           (Scalar0 6) (Scalar0 4));
    reflexivity.
Defined.

(** A controller of momentum 1/2 and one of the default momentum
    calibrate the input alike when the hook is called without a
    momentum. *)
Lemma calibrate_input_momentum_witness :
  calibrate_input half [batch] None seen_module =
  calibrate_input (__init__ (T:=torch) None) [batch] None seen_module.
Proof.
  destruct (calibrate_input_momentum half seen_module 127%positive
              (Vec [1; -254; 3]) [] None eq_refl) as (_ & H & _).
  symmetry. apply H.
Defined.

Lemma calibrate_input_adopts_max_witness :
  exists (s : Tensor) (mx : F),
    calibrate_input half [qbatch] None seen_module =
      (Ok (PreSingle qbatch), set_input_scale s seen_module)
    /\ elems s = [mx].
Proof.
  destruct (calibrate_input_adopts_max half seen_module 127%positive
              (mkQTensor (T:=torch) (Vec [10; 20; 30]) (Vec [1.0; 3.0; 2.0]))
              [] None eq_refl) as (s & mx & H1 & H2 & _).
  - discriminate.
  - exists s, mx. split; assumption.
Defined.

Lemma hooks_skip_other_modules_witness :
  call_module (snd (__enter__ half empty_registry)) [batch] plain_double =
  (Ok (Plain (T:=torch) (Vec [2; -508; 6])), plain_double).
Proof.
  destruct (hooks_skip_other_modules half plain_double
              (snd (__enter__ half empty_registry)) eq_refl eq_refl eq_refl)
    as (_ & _ & _ & H).
  rewrite H. reflexivity.
Defined.

Lemma exit_runs_on_error_witness :
  exists (self1 : Calibration) (g2 : Registry),
    with_calibration half (forward_pass []) empty_registry fresh_module =
      (Raise IndexError, (self1, g2, fresh_module))
    /\ forward_pre_hooks g2 = [] /\ forward_hooks g2 = [].
Proof.
  destruct (exit_runs_on_error half (forward_pass []) empty_registry
              fresh_module fresh_module IndexError well_formed_empty eq_refl)
    as (self1 & g2 & h1 & h2 & H & _ & _ & _ & _ & Hpre & Hpost & _).
  exists self1, g2. repeat split; assumption.
Defined.

Lemma sequential_scopes_witness :
  fst (with_calibration
         (fst (fst (snd (with_calibration half (forward_pass [batch])
                           empty_registry fresh_module))))
         (forward_pass [batch])
         (snd (fst (snd (with_calibration half (forward_pass [batch])
                           empty_registry fresh_module))))
         (snd (snd (with_calibration half (forward_pass [batch])
                      empty_registry fresh_module))))
  = fst (with_calibration half (forward_pass [batch]) empty_registry
           (snd (snd (with_calibration half (forward_pass [batch])
                        empty_registry fresh_module)))).
Proof.
  destruct (sequential_scopes half (forward_pass [batch]) (forward_pass [batch])
              empty_registry fresh_module well_formed_empty
              (forward_pass_observes [batch]))
    as (_ & _ & _ & H & _).
  exact H.
Defined.

Lemma calibrate_input_returns_first_witness :
  exists (args : list Value) (module' : Module),
    run_pre_hooks [fun input => calibrate_input half input None]
      [batch; qbatch] fresh_module = (Ok args, module')
    /\ args = [batch].
Proof.
  destruct (calibrate_input_returns_first half fresh_module 127%positive
              batch [qbatch] None eq_refl) as [_ H].
  exists [batch], (set_input_scale (T:=torch) (Scalar0 2) fresh_module).
  split; [reflexivity|].
  apply (H [batch] (set_input_scale (T:=torch) (Scalar0 2) fresh_module)). reflexivity.
Defined.

Lemma hooks_index_unguarded_witness :
  calibrate_input half [] None fresh_module = (Raise IndexError, fresh_module)
  /\ calibrate_output half [] batch fresh_module = (Raise IndexError, fresh_module).
Proof.
  destruct (hooks_index_unguarded half fresh_module 127%positive None batch
              eq_refl) as (H1 & H2 & _).
  split; assumption.
Defined.

(** C3 as the specification states it fails: after entering on an empty
    registry, [__exit__] pops the mode before it removes the hooks. *)
Lemma exit_order_counterexample :
  match fst (__enter__ half empty_registry) with
  | Ok self1 =>
      exit_events self1 None (snd (__enter__ half empty_registry))
        = [EvPopMode; EvRemove PreHooks 0; EvRemove PostHooks 1]
      /\ removes_before_pop
           (exit_events self1 None (snd (__enter__ half empty_registry)))
         = false
  | Raise _ => False
  end.
Proof. split; reflexivity. Qed.

(** The order the specification describes would pass the check. *)
Example removes_before_pop_reverse_order :
  removes_before_pop [EvRemove PreHooks 0; EvRemove PostHooks 1; EvPopMode] = true.
Proof. reflexivity. Qed.

(** The scenario of the specification for a quantized input: the scale
    [1.0, 3.0, 2.0] gives the input scale 3.0, from any previous scale
    and under any momentum. *)
Example adopts_max_scenario (prev : qtensor) (mom : option Q) :
  input_scale
    (snd (calibrate_input half [qbatch] mom
            (qdouble (Some 127%positive) prev (Scalar0 1))))
  = Scalar0 3.0.
Proof. reflexivity. Qed.

(** The two momenta side by side: the input scale of [seen_module] moves
    from 2 towards the candidate 4 by 0.9 when calibrated through a
    registered hook, its output scale towards 4 by 1/2. *)
Example momenta_scenario :
  input_scale
    (snd (calibrate_input half [Plain (T:=torch) (Vec [1; -508; 3])] None
            seen_module))
  = Scalar0 (11 # 5)
  /\ output_scale
       (snd (calibrate_output half [batch] batch seen_module))
     = Scalar0 3.
Proof. split; reflexivity. Qed.

End Examples.

(** * Further properties of the hooks *)

Section HookFrames.

Context {T : Torch} {Qo : Quanto}.

Lemma eligible_set_input_scale (s : Tensor) (module : Module) :
  eligible (set_input_scale s module) = eligible module.
Proof. reflexivity. Qed.

Lemma eligible_set_output_scale (s : Tensor) (module : Module) :
  eligible (set_output_scale s module) = eligible module.
Proof. reflexivity. Qed.

(** The input hook on any module and any input. *)
Lemma calibrate_input_cases (self : Calibration) (input : list Value)
    (mom : option F) (module : Module) :
  (exists r, calibrate_input self input mom module = (r, module))
  \/ (exists x s, calibrate_input self input mom module =
                  (Ok (PreSingle x), set_input_scale s module)).
Proof.
  destruct (eligible module) as [acts|] eqn:He.
  - destruct input as [|[t|q] rest].
    + left. eexists. apply (calibrate_input_empty self module acts mom He).
    + rewrite (calibrate_input_plain self module acts t rest mom He).
      destruct (absmax_scale t acts AxisOmitted); [|left; eauto].
      destruct (_updated_scale _ _ _); [right; eauto|left; eauto].
    + rewrite (calibrate_input_quant self module acts q rest mom He).
      destruct (tmax _); [right; eauto|left; eauto].
  - left. eexists. apply (calibrate_input_skips self module input mom He).
Qed.

(** X1. Whatever the module and the input, the input hook writes
    nothing but [input_scale]: the module's kind, its configuration, its
    output scale and its forward paths are as before; and when the hook
    raises, the module is left exactly as it was. *)
Theorem calibrate_input_frame (self : Calibration) (input : list Value)
    (mom : option F) (module : Module) :
  let after := snd (calibrate_input self input mom module) in
  is_qmodule after = is_qmodule module
  /\ activations after = activations module
  /\ output_scale after = output_scale module
  /\ qforward_fn after = qforward_fn module
  /\ forward_fn after = forward_fn module
  /\ (forall e : exn,
        fst (calibrate_input self input mom module) = Raise e ->
        after = module).
Proof.
  cbv zeta.
  destruct (calibrate_input_cases self input mom module)
    as [[r H]|(x & s & H)]; rewrite H; cbn [fst snd].
  - repeat split; reflexivity.
  - repeat split; try reflexivity. discriminate.
Qed.

(** The output hook on any module and any input. *)
Lemma calibrate_output_cases (self : Calibration) (input : list Value)
    (output : Value) (module : Module) :
  (exists r, calibrate_output self input output module = (r, module))
  \/ (exists x rest s,
        input = x :: rest
        /\ calibrate_output self input output module =
           (match forward (set_output_scale s module) [x] with
            | Ok out => Ok (Some out)
            | Raise e => Raise e
            end, set_output_scale s module)).
Proof.
  destruct (eligible module) as [acts|] eqn:He.
  - destruct input as [|x rest].
    + left. eexists. apply (calibrate_output_empty self module acts output He).
    + rewrite (calibrate_output_eq self module acts x rest output He).
      destruct (qforward module x); [|left; eauto].
      destruct (absmax_scale _ acts AxisNone); [|left; eauto].
      destruct (_updated_scale _ _ _) as [s|]; [|left; eauto].
      right. exists x, rest, s. split; [reflexivity|].
      destruct (forward _ _); reflexivity.
  - left. eexists. apply (calibrate_output_skips self module input output He).
Qed.

(** X2. Whatever the module and the input, the output hook writes
    nothing but [output_scale]; and when it raises, either the module is
    as it was or the new output scale is already stored and the exception
    is the one [forward] raised on the module with that scale. *)
Theorem calibrate_output_frame (self : Calibration) (input : list Value)
    (output : Value) (module : Module) :
  let after := snd (calibrate_output self input output module) in
  is_qmodule after = is_qmodule module
  /\ activations after = activations module
  /\ input_scale after = input_scale module
  /\ qforward_fn after = qforward_fn module
  /\ forward_fn after = forward_fn module
  /\ (forall e : exn,
        fst (calibrate_output self input output module) = Raise e ->
        after = module
        \/ exists x rest s,
             input = x :: rest
             /\ after = set_output_scale s module
             /\ forward (set_output_scale s module) [x] = Raise e).
Proof.
  cbv zeta.
  destruct (calibrate_output_cases self input output module)
    as [[r H]|(x & rest & s & Hi & H)]; rewrite H; cbn [fst snd].
  - repeat split; try reflexivity. intros e _. now left.
  - repeat split; try reflexivity. intros e He. right.
    exists x, rest, s. repeat split; try assumption.
    destruct (forward (set_output_scale s module) [x]); congruence.
Qed.

(** X3. The output hook is not atomic: when the raw path, the
    estimator and the scale update succeed but [forward] raises on the
    module with the new scale, the hook raises that exception and
    [output_scale] keeps the new value. *)
Theorem calibrate_output_raises_after_update
    (self : Calibration) (module : Module) (acts : QType)
    (x : Value) (rest : list Value) (output qoutput : Value)
    (candidate s : Tensor) (e : exn) :
  eligible module = Some acts ->
  qforward module x = Ok qoutput ->
  absmax_scale (dequantized qoutput) acts AxisNone = Ok candidate ->
  _updated_scale (output_scale module) candidate (momentum self) = Ok s ->
  forward (set_output_scale s module) [x] = Raise e ->
  calibrate_output self (x :: rest) output module =
  (Raise e, set_output_scale s module).
Proof.
  intros He Hq Ha Hu Hf.
  rewrite (calibrate_output_eq self module acts x rest output He).
  now rewrite Hq, Ha, Hu, Hf.
Qed.

(** X4. Adopting the scale of a quantized input is idempotent: the
    input hook run twice on the same quantized input leaves the module,
    and returns, what one run does. *)
Theorem calibrate_input_quant_idempotent (self : Calibration)
    (q : QTensor) (rest : list Value) (mom : option F) (module : Module) :
  (calibrate_input self (Quant q :: rest) mom ;;
   calibrate_input self (Quant q :: rest) mom) module =
  calibrate_input self (Quant q :: rest) mom module.
Proof.
  unfold bind at 1.
  destruct (eligible module) as [acts|] eqn:He.
  - rewrite (calibrate_input_quant self module acts q rest mom He).
    destruct (tmax (_scale q)) as [s|e] eqn:E; [|reflexivity].
    rewrite (calibrate_input_quant self (set_input_scale s module) acts q rest
               mom He), E.
    reflexivity.
  - rewrite (calibrate_input_skips self module _ mom He).
    apply (calibrate_input_skips self module _ mom He).
Qed.

(** X5. Two batches through the input hook of a module that was never
    calibrated: the first candidate is stored as it is; the second is
    averaged with it under the hook's momentum, unless the first candidate
    is itself all ones, in which case the second replaces it. *)
Theorem calibrate_input_two_batches {L : TorchLaws T}
    (self : Calibration) (module : Module) (acts : QType)
    (t1 t2 : Tensor) (rest1 rest2 : list Value) (mom : option F)
    (c1 c2 : Tensor) :
  eligible module = Some acts ->
  is_sentinel (input_scale module) ->
  absmax_scale t1 acts AxisOmitted = Ok c1 ->
  absmax_scale t2 acts AxisOmitted = Ok c2 ->
  (calibrate_input self (Plain t1 :: rest1) mom ;;
   calibrate_input self (Plain t2 :: rest2) mom) module =
  if torch_all (tensor_eq_scalar c1 (lit 1))
  then (Ok (PreSingle (Plain t2)), set_input_scale c2 module)
  else match tadd (smul (momentum_used mom) c1)
                  (smul (fsub (lit 1) (momentum_used mom)) c2) with
       | Ok s => (Ok (PreSingle (Plain t2)), set_input_scale s module)
       | Raise e => (Raise e, set_input_scale c1 module)
       end.
Proof.
  intros He Hs H1 H2. unfold bind at 1.
  rewrite (calibrate_input_plain self module acts t1 rest1 mom He), H1.
  rewrite (updated_scale_sentinel _ c1 (momentum_used mom) Hs).
  rewrite (calibrate_input_plain self (set_input_scale c1 module) acts t2 rest2
             mom He), H2.
  cbn [input_scale set_input_scale].
  destruct (torch_all (tensor_eq_scalar c1 (lit 1))) eqn:E.
  - apply torch_all_eq_sentinel in E.
    now rewrite (updated_scale_sentinel c1 c2 (momentum_used mom) E).
  - assert (Hn : ~ is_sentinel c1).
    { intros H. apply torch_all_eq_sentinel in H. congruence. }
    rewrite (updated_scale_average c1 c2 (momentum_used mom) Hn).
    rewrite muls_smul, (@lit_Qeq T L 1.0%Q 1%Q) by reflexivity.
    destruct (tadd _ _); reflexivity.
Qed.

End HookFrames.

(** * Further properties of the lifecycle *)

Section MonadSteps.

(** A step that returns hands its result and state to what follows. *)
Lemma bind_ok {S A B : Type} (c : M S A) (k : A -> M S B) (s s' : S) (a : A) :
  c s = (Ok a, s') -> bind c k s = k a s'.
Proof. intros H. unfold bind. now rewrite H. Qed.

Lemma middle_of_four {A B C D : Type} (a : A) (b : B) (c : C) (d : D) :
  snd (fst (snd (a, (b, c, d)))) = c.
Proof. reflexivity. Qed.

End MonadSteps.

Section DictKeys.

Context {V : Type}.

Lemma keys_app (d1 d2 : list (nat * V)) : keys (d1 ++ d2) = keys d1 ++ keys d2.
Proof. apply map_app. Qed.

Lemma keys_dict_set (P : nat -> Prop) (k : nat) (v : V) (d : list (nat * V)) :
  Forall P (keys d) -> P k -> Forall P (keys (dict_set k v d)).
Proof.
  intros Hd Hk. induction d as [|[k' v'] d IH]; simpl.
  - now constructor.
  - inversion Hd as [|? ? Hk' Hd']; subst.
    destruct (Nat.eqb k' k); simpl; constructor; auto.
Qed.

Lemma keys_dict_del (P : nat -> Prop) (k : nat) (d : list (nat * V)) :
  Forall P (keys d) -> Forall P (keys (dict_del k d)).
Proof.
  intros Hd. induction d as [|[k' v'] d IH]; simpl; [constructor|].
  inversion Hd as [|? ? Hk' Hd']; subst.
  destruct (Nat.eqb k' k); simpl; [|constructor]; auto.
Qed.

(** Registering under a key above every key in use, and above [n]. *)
Lemma dict_set_above (n k : nat) (v : V) (d : list (nat * V)) :
  Forall (fun j => j < n) (keys d) -> n <= k ->
  dict_set k v d = d ++ [(k, v)].
Proof.
  intros Hd Hk. apply dict_set_fresh. intros Hin.
  rewrite Forall_forall in Hd. apply Hd in Hin. lia.
Qed.

Lemma dict_del_above (n k : nat) (d : list (nat * V)) :
  Forall (fun j => j < n) (keys d) -> n <= k -> dict_del k d = d.
Proof.
  intros Hd Hk. apply dict_del_absent. intros Hin.
  rewrite Forall_forall in Hd. apply Hd in Hin. lia.
Qed.

Lemma dict_del_last (k : nat) (v : V) (d : list (nat * V)) :
  ~ In k (keys d) -> dict_del k (d ++ [(k, v)]) = d.
Proof.
  intros H. rewrite dict_del_app, (dict_del_absent k d H). simpl.
  rewrite Nat.eqb_refl. apply app_nil_r.
Qed.

Lemma keys_snoc_below (n k : nat) (v : V) (d : list (nat * V)) :
  Forall (fun j => j < n) (keys d) -> k < n ->
  Forall (fun j => j < n) (keys (d ++ [(k, v)])).
Proof.
  intros Hd Hk. rewrite keys_app. apply Forall_app. split; [exact Hd|].
  now repeat constructor.
Qed.

Lemma keys_below_weaken (n m : nat) (ks : list nat) :
  Forall (fun j => j < n) ks -> n <= m -> Forall (fun j => j < m) ks.
Proof.
  intros H Hle. eapply Forall_impl; [|exact H]. simpl. intros; lia.
Qed.

Lemma dict_del_nil (k : nat) : dict_del k (@nil (nat * V)) = [].
Proof. reflexivity. Qed.

Lemma dict_del_single_same (k : nat) (v : V) : dict_del k [(k, v)] = [].
Proof. unfold dict_del. simpl. now rewrite Nat.eqb_refl. Qed.

Lemma dict_del_single_other (k k' : nat) (v : V) :
  k' <> k -> dict_del k [(k', v)] = [(k', v)].
Proof.
  intros H. unfold dict_del. simpl.
  destruct (Nat.eqb_spec k' k); [contradiction|reflexivity].
Qed.

(** Two registrations in a row under keys at or above the counter, and
    the removals that can follow them. *)
Lemma two_fresh_sets (n k : nat) (v1 v2 : V) (d : list (nat * V)) :
  Forall (fun j => j < n) (keys d) -> n <= k ->
  let both := dict_set (S (S k)) v2 (dict_set k v1 d) in
  dict_del k (dict_del (S (S k)) both) = d
  /\ dict_del (S (S k)) (dict_del k both) = d
  /\ dict_del (S (S k)) (dict_del (S (S k)) both) = d ++ [(k, v1)].
Proof.
  intros Hd Hk both.
  assert (H0 : ~ In k (keys d)).
  { intros Hin. rewrite Forall_forall in Hd. apply Hd in Hin. lia. }
  assert (H2 : ~ In (S (S k)) (keys d)).
  { intros Hin. rewrite Forall_forall in Hd. apply Hd in Hin. lia. }
  assert (H1 : ~ In (S (S k)) (keys (d ++ [(k, v1)]))).
  { rewrite keys_app, in_app_iff. intros [Hin|Hin]; [contradiction|].
    simpl in Hin. lia. }
  assert (Hboth : both = d ++ [(k, v1)] ++ [(S (S k), v2)]).
  { unfold both. rewrite (dict_set_fresh k v1 d H0).
    rewrite (dict_set_fresh (S (S k)) v2 _ H1). now rewrite <- app_assoc. }
  rewrite Hboth.
  repeat first
    [ rewrite dict_del_app
    | rewrite (dict_del_absent k d H0)
    | rewrite (dict_del_absent (S (S k)) d H2)
    | rewrite dict_del_single_same
    | rewrite (dict_del_single_other k (S (S k)) v2) by lia
    | rewrite (dict_del_single_other (S (S k)) k v1) by lia
    | rewrite dict_del_nil
    | rewrite app_nil_r ].
  repeat split; reflexivity.
Qed.

End DictKeys.

Section LifecycleEdges.

Context {T : Torch} {Qo : Quanto}.

Ltac run_framework :=
  cbv [__enter__ __exit__ _push_mode _pop_mode register_module_forward_pre_hook
       register_module_forward_hook remove getattr log
       bind get modify lift ret]; cbn.

Local Abbreviation entered self g :=
  {| momentum := momentum self;
     pre_handle := Some {| hooks_dict := PreHooks; id := next_id g |};
     post_handle := Some {| hooks_dict := PostHooks; id := S (next_id g) |} |}.

(** X6. Every key of the two hook dictionaries lies below the handle
    counter: [__enter__] keeps this, and so does [__exit__], on any
    controller and however it ends. *)
Theorem lifecycle_keeps_well_formed (self : Calibration) (g : Registry) :
  well_formed g ->
  well_formed (snd (__enter__ self g))
  /\ (forall (self' : Calibration) (exc : option exn),
        well_formed (snd (__exit__ self' exc g))).
Proof.
  intros [Hpre Hpost]. split.
  - rewrite enter_registry. split; cbn [forward_pre_hooks forward_hooks next_id].
    + apply keys_dict_set; [|lia].
      apply (keys_below_weaken (next_id g)); [exact Hpre|lia].
    + apply keys_dict_set; [|lia].
      apply (keys_below_weaken (next_id g)); [exact Hpost|lia].
  - intros [m [[d1 i1]|] [[d2 i2]|]] exc; run_framework;
      destruct (mode_stack g) as [|top rest]; cbn;
      try (split; assumption);
      destruct d1; try destruct d2; cbn; split; cbn;
      repeat apply keys_dict_del; assumption.
Qed.

(** X7. [__exit__] on a controller that was never entered: with no
    mode on the stack the pop raises and nothing changes; otherwise the
    top mode, pushed by someone else, is popped before the missing handle
    raises [AttributeError]; the hook dictionaries are untouched. *)
Theorem exit_without_enter (m : option F) (exc : option exn) (g : Registry) :
  match mode_stack g with
  | [] => __exit__ (__init__ m) exc g = (Raise RuntimeError, g)
  | _ :: rest =>
      fst (__exit__ (__init__ m) exc g) = Raise AttributeError
      /\ mode_stack (snd (__exit__ (__init__ m) exc g)) = rest
      /\ forward_pre_hooks (snd (__exit__ (__init__ m) exc g))
         = forward_pre_hooks g
      /\ forward_hooks (snd (__exit__ (__init__ m) exc g)) = forward_hooks g
  end.
Proof.
  run_framework. destruct (mode_stack g); cbn; [reflexivity|].
  repeat split; reflexivity.
Qed.

(** [__exit__] on a controller that holds a handle into each dictionary,
    with a mode on the stack. *)
Lemma exit_fields (m : F) (i j : nat) (exc : option exn) (g : Registry)
    (top : FunctionMode) (rest : list FunctionMode) :
  mode_stack g = top :: rest ->
  exists g' : Registry,
    __exit__ {| momentum := m;
                pre_handle := Some {| hooks_dict := PreHooks; id := i |};
                post_handle := Some {| hooks_dict := PostHooks; id := j |} |}
      exc g = (Ok false, g')
    /\ mode_stack g' = rest
    /\ forward_pre_hooks g' = dict_del i (forward_pre_hooks g)
    /\ forward_hooks g' = dict_del j (forward_hooks g)
    /\ next_id g' = next_id g.
Proof.
  intros Hm. run_framework. rewrite Hm. cbn.
  eexists. split; [reflexivity|]. repeat split; reflexivity.
Qed.

Lemma enter_fields (self : Calibration) (g : Registry) :
  exists g' : Registry,
    __enter__ self g = (Ok (entered self g), g')
    /\ mode_stack g' = CalibrationMode (momentum self) :: mode_stack g
    /\ forward_pre_hooks g' =
       dict_set (next_id g) (fun input => calibrate_input self input None)
         (forward_pre_hooks g)
    /\ forward_hooks g' =
       dict_set (S (next_id g)) (calibrate_output self) (forward_hooks g)
    /\ next_id g' = S (S (next_id g)).
Proof.
  exists (snd (__enter__ self g)). split; [apply enter_eq|].
  rewrite enter_registry. repeat split; reflexivity.
Qed.

(** X8. Entering the same controller twice before leaving it leaks the
    first pair of hooks: the second [__enter__] overwrites the handles, so
    the two [__exit__] calls both remove the second pair, and the hooks of
    the first registration stay in the dictionaries after both scopes are
    closed. *)
Theorem reentry_leaks_hooks (self : Calibration) (g : Registry) :
  well_formed g ->
  let run := (once <- __enter__ self ;;
              twice <- __enter__ once ;;
              __exit__ twice None ;;
              __exit__ twice None) g in
  fst run = Ok false
  /\ forward_pre_hooks (snd run) =
     forward_pre_hooks g
     ++ [(next_id g, fun input => calibrate_input self input None)]
  /\ forward_hooks (snd run) =
     forward_hooks g ++ [(S (next_id g), calibrate_output self)]
  /\ mode_stack (snd run) = mode_stack g.
Proof.
  intros [Hpre Hpost] run. subst run.
  destruct (enter_fields self g) as (g1 & E1 & M1 & P1 & Q1 & N1).
  destruct (enter_fields (entered self g) g1) as (g2 & E2 & M2 & P2 & Q2 & N2).
  destruct (exit_fields (momentum (entered self g)) (next_id g1)
              (S (next_id g1)) None g2 _ _ M2)
    as (g3 & E3 & M3 & P3 & Q3 & N3).
  destruct (exit_fields (momentum (entered self g)) (next_id g1)
              (S (next_id g1)) None g3 _ _ (eq_trans M3 M1))
    as (g4 & E4 & M4 & P4 & Q4 & N4).
  rewrite (bind_ok (__enter__ self) _ g _ _ E1). cbv beta.
  rewrite (bind_ok (__enter__ (entered self g)) _ g1 _ _ E2). cbv beta.
  rewrite (bind_ok _ _ g2 _ _ E3), E4.
  cbn [fst snd]. rewrite M4, P4, Q4, P3, Q3, P2, Q2, P1, Q1, N1.
  destruct (two_fresh_sets (next_id g) (next_id g)
              (fun input => calibrate_input self input None)
              (fun input => calibrate_input (entered self g) input None)
              (forward_pre_hooks g) Hpre (le_n _)) as (_ & _ & Hp).
  destruct (two_fresh_sets (next_id g) (S (next_id g))
              (calibrate_output self) (calibrate_output (entered self g))
              (forward_hooks g) Hpost (le_S _ _ (le_n _))) as (_ & _ & Hq).
  repeat split; [exact Hp|exact Hq].
Qed.

(** X9. Two different controllers nested one inside the other clean up
    after themselves: each [__exit__] removes its own controller's pair,
    so once both are left, in either order, the dictionaries and the mode
    stack are what they were. *)
Theorem nested_controllers_restore (outer inner : Calibration) (g : Registry) :
  well_formed g ->
  let lifo := (a <- __enter__ outer ;;
               b <- __enter__ inner ;;
               __exit__ b None ;;
               __exit__ a None) g in
  let fifo := (a <- __enter__ outer ;;
               b <- __enter__ inner ;;
               __exit__ a None ;;
               __exit__ b None) g in
  (fst lifo = Ok false
   /\ forward_pre_hooks (snd lifo) = forward_pre_hooks g
   /\ forward_hooks (snd lifo) = forward_hooks g
   /\ mode_stack (snd lifo) = mode_stack g)
  /\ (fst fifo = Ok false
      /\ forward_pre_hooks (snd fifo) = forward_pre_hooks g
      /\ forward_hooks (snd fifo) = forward_hooks g
      /\ mode_stack (snd fifo) = mode_stack g).
Proof.
  intros [Hpre Hpost] lifo fifo. subst lifo fifo.
  destruct (enter_fields outer g) as (g1 & E1 & M1 & P1 & Q1 & N1).
  destruct (enter_fields inner g1) as (g2 & E2 & M2 & P2 & Q2 & N2).
  destruct (two_fresh_sets (next_id g) (next_id g)
              (fun input => calibrate_input outer input None)
              (fun input => calibrate_input inner input None)
              (forward_pre_hooks g) Hpre (le_n _)) as (Hp1 & Hp2 & _).
  destruct (two_fresh_sets (next_id g) (S (next_id g))
              (calibrate_output outer) (calibrate_output inner)
              (forward_hooks g) Hpost (le_S _ _ (le_n _))) as (Hq1 & Hq2 & _).
  split.
  - destruct (exit_fields (momentum inner) (next_id g1) (S (next_id g1)) None g2
                _ _ M2) as (g3 & E3 & M3 & P3 & Q3 & N3).
    destruct (exit_fields (momentum outer) (next_id g) (S (next_id g)) None g3
                _ _ (eq_trans M3 M1)) as (g4 & E4 & M4 & P4 & Q4 & N4).
    rewrite (bind_ok (__enter__ outer) _ g _ _ E1). cbv beta.
    rewrite (bind_ok (__enter__ inner) _ g1 _ _ E2). cbv beta.
    rewrite (bind_ok _ _ g2 _ _ E3), E4.
    cbn [fst snd]. rewrite M4, P4, Q4, P3, Q3, P2, Q2, P1, Q1, N1.
    repeat split; [exact Hp1|exact Hq1].
  - destruct (exit_fields (momentum outer) (next_id g) (S (next_id g)) None g2
                _ _ M2) as (g3 & E3 & M3 & P3 & Q3 & N3).
    destruct (exit_fields (momentum inner) (next_id g1) (S (next_id g1)) None g3
                _ _ (eq_trans M3 M1)) as (g4 & E4 & M4 & P4 & Q4 & N4).
    rewrite (bind_ok (__enter__ outer) _ g _ _ E1). cbv beta.
    rewrite (bind_ok (__enter__ inner) _ g1 _ _ E2). cbv beta.
    rewrite (bind_ok _ _ g2 _ _ E3), E4.
    cbn [fst snd]. rewrite M4, P4, Q4, P3, Q3, P2, Q2, P1, Q1, N1.
    repeat split; [exact Hp2|exact Hq2].
Qed.

End LifecycleEdges.

(** * Calling a module inside a calibration scope *)

Section CallsUnderCalibration.

Context {T : Torch} {Qo : Quanto}.

Local Abbreviation entered self g :=
  {| momentum := momentum self;
     pre_handle := Some {| hooks_dict := PreHooks; id := next_id g |};
     post_handle := Some {| hooks_dict := PostHooks; id := S (next_id g) |} |}.

(** X10. One call of an eligible module while the two calibration
    hooks are the registered hooks: the input scale is updated first, the
    module then runs on its first positional input alone, the raw path is
    re-evaluated on the module with the new input scale, the output scale
    is updated, and the call returns what [forward] gives on the first
    input with both new scales; the further positional inputs and the
    output of the first [forward] run do not reach the result. *)
Theorem call_module_calibrating
    (self : Calibration) (g : Registry) (module : Module) (acts : QType)
    (x : Value) (rest : list Value) (s_in : Tensor)
    (out0 qoutput : Value) (candidate s_out : Tensor) :
  map snd (forward_pre_hooks g) = [fun input => calibrate_input self input None] ->
  map snd (forward_hooks g) = [calibrate_output self] ->
  eligible module = Some acts ->
  calibrate_input self (x :: rest) None module =
    (Ok (PreSingle x), set_input_scale s_in module) ->
  forward (set_input_scale s_in module) [x] = Ok out0 ->
  qforward (set_input_scale s_in module) x = Ok qoutput ->
  absmax_scale (dequantized qoutput) acts AxisNone = Ok candidate ->
  _updated_scale (output_scale module) candidate (momentum self) = Ok s_out ->
  call_module g (x :: rest) module =
  (forward (set_output_scale s_out (set_input_scale s_in module)) [x],
   set_output_scale s_out (set_input_scale s_in module)).
Proof.
  intros Hpre Hpost He Hin Hf Hq Ha Hu.
  set (m1 := set_input_scale s_in module) in *.
  set (m2 := set_output_scale s_out m1).
  assert (Hrun : run_pre_hooks [fun input => calibrate_input self input None]
                   (x :: rest) module = (Ok [x], m1)).
  { cbn [run_pre_hooks].
    now rewrite (bind_ok (calibrate_input self (x :: rest) None) _ module _ _ Hin). }
  assert (Hfwd : lift (forward m1 [x]) m1 = (Ok out0, m1)).
  { unfold lift. now rewrite Hf. }
  assert (Hout : calibrate_output self [x] out0 m1 =
                 (match forward m2 [x] with
                  | Ok out => Ok (Some out)
                  | Raise e => Raise e
                  end, m2)).
  { rewrite (calibrate_output_eq self m1 acts x [] out0 He), Hq, Ha.
    change (output_scale m1) with (output_scale module). rewrite Hu.
    fold m2. destruct (forward m2 [x]); reflexivity. }
  unfold call_module. rewrite Hpre, Hpost.
  rewrite (bind_ok _ _ module _ _ Hrun). cbv beta.
  rewrite (bind_ok get _ m1 m1 m1 eq_refl). cbv beta.
  rewrite (bind_ok _ _ m1 _ _ Hfwd). cbv beta.
  cbn [run_post_hooks]. unfold bind at 1. rewrite Hout.
  destruct (forward m2 [x]); reflexivity.
Qed.

(** X11. While the two calibration hooks are registered, an eligible
    module called with no positional input raises [IndexError] from the
    pre-hook, before its [forward] runs and without any change to the
    module, even when [forward] accepts an empty input; with no hook
    registered the same call is just [forward]. *)
Theorem call_without_input_under_calibration
    (self : Calibration) (g : Registry) (module : Module) (acts : QType) :
  map snd (forward_pre_hooks g) = [fun input => calibrate_input self input None] ->
  map snd (forward_hooks g) = [calibrate_output self] ->
  eligible module = Some acts ->
  call_module g [] module = (Raise IndexError, module)
  /\ (forall g0 : Registry,
        forward_pre_hooks g0 = [] -> forward_hooks g0 = [] ->
        call_module g0 [] module = (forward module [], module)).
Proof.
  intros Hpre Hpost He. split.
  - unfold call_module. rewrite Hpre, Hpost.
    cbn [run_pre_hooks]. unfold bind at 1 2.
    now rewrite (calibrate_input_empty self module acts None He).
  - intros g0 H1 H2. now apply call_module_no_hooks.
Qed.

(** The three components of what the [with] statement returns. *)
Lemma with_outcome {St : Type} (self : Calibration)
    (body : Registry -> M St unit) (g : Registry) (st : St) :
  fst (with_calibration self body g st) = fst (body (snd (__enter__ self g)) st).
Proof. rewrite with_calibration_eq. reflexivity. Qed.

Lemma with_store {St : Type} (self : Calibration)
    (body : Registry -> M St unit) (g : Registry) (st : St) :
  snd (snd (with_calibration self body g st)) = snd (body (snd (__enter__ self g)) st).
Proof. rewrite with_calibration_eq. reflexivity. Qed.

Lemma with_registry {St : Type} (self : Calibration)
    (body : Registry -> M St unit) (g : Registry) (st : St) :
  snd (fst (snd (with_calibration self body g st))) =
  snd (__exit__ (entered self g) None (snd (__enter__ self g))).
Proof. rewrite with_calibration_eq. apply middle_of_four. Qed.
(** X12. A calibration scope adds nothing of its own to the outcome:
    the [with] statement ends as its body ends, with the body's result or
    exception and the body's store, and leaves the hook dictionaries and
    the mode stack as they were; only the handle counter has moved, by
    two. *)
Theorem scope_transparent {St : Type} (self : Calibration)
    (body : Registry -> M St unit) (g : Registry) (st : St) :
  well_formed g ->
  let inside := snd (__enter__ self g) in
  let done := with_calibration self body g st in
  fst done = fst (body inside st)
  /\ snd (snd done) = snd (body inside st)
  /\ forward_pre_hooks (snd (fst (snd done))) = forward_pre_hooks g
  /\ forward_hooks (snd (fst (snd done))) = forward_hooks g
  /\ mode_stack (snd (fst (snd done))) = mode_stack g
  /\ next_id (snd (fst (snd done))) = S (S (next_id g)).
Proof.
  intros Hwf inside done. subst inside done.
  rewrite with_outcome, with_store, with_registry.
  destruct (scope_restores self g Hwf) as (Hpre & Hpost & Hmode).
  split; [reflexivity|]. split; [reflexivity|].
  split; [exact Hpre|]. split; [exact Hpost|]. split; [exact Hmode|].
  now rewrite (exit_after_enter self g None).
Qed.

End CallsUnderCalibration.

(** * The further properties at work on rational tensors *)

Module MoreExamples.
Import Rational RationalFacts.

Local Open Scope Q_scope.

Local Abbreviation half := (__init__ (T:=torch) (Some (1 # 2))).
Local Abbreviation fresh_module := (qdouble (Some 127%positive) (Scalar0 1) (Scalar0 1)).
Local Abbreviation seen_module := (qdouble (Some 127%positive) (Scalar0 2) (Scalar0 2)).
Local Abbreviation batch := (Plain (T:=torch) (Vec [1; -254; 3])).
Local Abbreviation loud_batch := (Plain (T:=torch) (Vec [1; -508; 3])).
Local Abbreviation qbatch :=
  (Quant (mkQTensor (T:=torch) (Vec [10; 20; 30]) (Vec [1.0; 3.0; 2.0]))).
Local Abbreviation calibrating := (snd (__enter__ half empty_registry)).

Lemma empty_registry_well_formed : well_formed empty_registry.
Proof. split; constructor. Defined.

Lemma calibrate_output_raises_after_update_witness :
  calibrate_output half [batch] batch (brittle (Scalar0 2) (Scalar0 2)) =
  (Raise RuntimeError,
   set_output_scale (T:=torch) (Scalar0 3) (brittle (Scalar0 2) (Scalar0 2))).
Proof.
  apply (calibrate_output_raises_after_update half
           (brittle (Scalar0 2) (Scalar0 2)) 127%positive batch [] batch
           (Plain (T:=torch) (Vec [2; -508; 6])) (Scalar0 4) (Scalar0 3)
           RuntimeError);
    reflexivity.
Defined.

Lemma calibrate_input_two_batches_witness :
  (calibrate_input half [batch] None ;;
   calibrate_input half [loud_batch] None) fresh_module =
  (Ok (PreSingle loud_batch),
   set_input_scale (T:=torch) (Scalar0 (11 # 5)) fresh_module).
Proof.
  refine (eq_trans
            (calibrate_input_two_batches half fresh_module 127%positive
               (Vec [1; -254; 3]) (Vec [1; -508; 3]) [] [] None
               (Scalar0 2) (Scalar0 4) eq_refl _ eq_refl eq_refl) _).
  - repeat constructor.
  - reflexivity.
Defined.

Lemma lifecycle_keeps_well_formed_witness : well_formed calibrating.
Proof.
  exact (proj1 (lifecycle_keeps_well_formed half empty_registry
                  empty_registry_well_formed)).
Defined.

Lemma reentry_leaks_hooks_witness :
  keys (forward_pre_hooks
          (snd ((once <- __enter__ half ;;
                 twice <- __enter__ once ;;
                 __exit__ twice None ;;
                 __exit__ twice None) empty_registry))) = [0%nat].
Proof.
  destruct (reentry_leaks_hooks half empty_registry empty_registry_well_formed)
    as (_ & H & _).
  rewrite H. reflexivity.
Defined.

Lemma nested_controllers_restore_witness :
  forward_pre_hooks
    (snd ((a <- __enter__ half ;;
           b <- __enter__ (__init__ (T:=torch) None) ;;
           __exit__ b None ;;
           __exit__ a None) empty_registry)) = [].
Proof.
  destruct (nested_controllers_restore half (__init__ (T:=torch) None)
              empty_registry empty_registry_well_formed)
    as ((_ & H & _) & _).
  exact H.
Defined.

Lemma call_module_calibrating_witness :
  call_module calibrating [batch; qbatch] seen_module =
  (Ok (Quant (mkQTensor (T:=torch) (Vec [2; -508; 6]) (Scalar0 3))),
   set_output_scale (T:=torch) (Scalar0 3)
     (set_input_scale (T:=torch) (Scalar0 2) seen_module)).
Proof.
  apply (call_module_calibrating half calibrating seen_module 127%positive
           batch [qbatch] (Scalar0 2)
           (Quant (mkQTensor (T:=torch) (Vec [2; -508; 6]) (Scalar0 2)))
           (Plain (T:=torch) (Vec [2; -508; 6])) (Scalar0 4) (Scalar0 3));
    reflexivity.
Defined.

Lemma call_without_input_under_calibration_witness :
  call_module calibrating [] fresh_module = (Raise IndexError, fresh_module).
Proof.
  exact (proj1 (call_without_input_under_calibration half calibrating
                  fresh_module 127%positive eq_refl eq_refl eq_refl)).
Defined.

Lemma scope_transparent_witness :
  fst (with_calibration half (forward_pass [batch]) empty_registry fresh_module)
  = Ok tt
  /\ forward_pre_hooks
       (snd (fst (snd (with_calibration half (forward_pass [batch])
                         empty_registry fresh_module)))) = [].
Proof.
  destruct (scope_transparent half (forward_pass [batch]) empty_registry
              fresh_module empty_registry_well_formed)
    as (H1 & _ & H2 & _).
  split; [rewrite H1; reflexivity|exact H2].
Defined.

End MoreExamples.
